(** * The project router of the Rails project-management application

    A shallow embedding of [src/server/api/routers/project.ts]: the tRPC
    procedures that manage projects, their default workflows, their members
    and their labels on top of a Prisma client.

    The relational store is a record of finite maps keyed by row id.  A
    procedure is a function from a store to an outcome and a store, so that
    what a rejected call leaves behind can be stated. *)

From stdpp Require Import gmap strings list fin_maps sorting.

(** ** Schema *)

(** The Prisma enum [ProjectType]. *)
Inductive ProjectType := KANBAN | SCRUM.

#[global] Instance ProjectType_eq_dec : EqDecision ProjectType.
Proof. solve_decision. Defined.

Module User.
Record t := mk {
  name : string;
  image : option string;
  workspaceId : option string;
}.
End User.

Module Workspace.
Record t := mk {
  shortName : string;
  createdById : string;
  members : gset string;
}.
End Workspace.

Module Label.
Record t := mk {
  title : string;
  color : string;
  projectId : string;
  description : option string;
}.
End Label.

(** An issue carries its position in the column and the relations the
    router counts: the ids of its labels, comments, assignees and linked
    issues. *)
Module Issue.
Record t := mk {
  index : Z;
  labels : list string;
  comments : list string;
  assignees : list string;
  linkedIssues : list string;
}.
End Issue.

(** A workflow row is kept under the project that owns it, and an issue under
    its workflow: the nesting stands for the foreign keys [projectId] and
    [workflowId]. *)
Module Workflow.
Record t := mk {
  title : string;
  index : Z;
  issue : list Issue.t;
}.
End Workflow.

(** [members] is the many-to-many relation between projects and users, seen
    from the project side; [User.projects] is the same relation seen from the
    user side.  [workspaceId] is optional: [createProject] passes
    [workspace?.id], which may be [undefined]. *)
Module Project.
Record t := mk {
  name : string;
  projectType : ProjectType;
  projectLeadId : string;
  defaultAssigneeId : option string;
  workspaceId : option string;
  members : gset string;
  workflows : list Workflow.t;
}.
End Project.

(** The tables.  A scalar foreign key ([projectLeadId], [workspaceId],
    [Label.projectId]) is a plain column: the router never reads back whether
    it points at a row, and the referential actions of the schema are not
    part of it.  What the client itself checks, the target of a [connect] and
    of a [where], is checked by the operations below. *)
Record Store := mkStore {
  users : gmap string User.t;
  workspaces : gmap string Workspace.t;
  projects : gmap string Project.t;
  labels : gmap string Label.t;
}.

Definition set_projects (f : gmap string Project.t → gmap string Project.t)
    (st : Store) : Store :=
  {| users := users st; workspaces := workspaces st;
     projects := f (projects st); labels := labels st |}.

Definition set_labels (f : gmap string Label.t → gmap string Label.t)
    (st : Store) : Store :=
  {| users := users st; workspaces := workspaces st;
     projects := projects st; labels := f (labels st) |}.

(** ** Errors and promises *)

Inductive TRPC_ERROR_CODE := UNAUTHORIZED | BAD_REQUEST.

(** One issue of a zod parse: the path of the field and the failed check. *)
Inductive ZodIssueCode := too_small | too_big.

Record ZodIssue := mkIssue { path : string; code : ZodIssueCode }.

(** What a procedure can be rejected with: an error thrown by the router, the
    input parser refusing the input (tRPC carries the zod issues to the
    caller), and the two conditions of the Prisma client that the router can
    meet: a required record that is absent, and a unique constraint. *)
Inductive Error :=
  | TRPCError (code : TRPC_ERROR_CODE) (message : string)
  | ZodError (issues : list ZodIssue)
  | RecordNotFound
  | UniqueConstraintFailed.

Definition Promise (A : Type) : Type := Store → (Error + A) * Store.

Definition resolve {A} (a : A) : Promise A := λ st, (inr a, st).
Definition reject {A} (e : Error) : Promise A := λ st, (inl e, st).

(** [await]: run the first promise, and the rest on its value; a rejection
    skips the rest. *)
Definition await {A B} (m : Promise A) (k : A → Promise B) : Promise B :=
  λ st, match m st with
        | (inr a, st') => k a st'
        | (inl e, st') => (inl e, st')
        end.

(** [try { m } catch (err) { h err }]. *)
Definition try_catch {A} (m : Promise A) (h : Error → Promise A) : Promise A :=
  λ st, match m st with
        | (inl e, st') => h e st'
        | r => r
        end.

Notation "'let*' x := m 'in' k" := (await m (λ x, k))
  (at level 10, x name, m at level 100, k at level 200).

(** The context of a protected procedure: the session of the authenticated
    caller. *)
Record Ctx := mkCtx { session_user_id : string }.

(** ** The default workflows of a project type *)

Record ProjectInfo := mkInfo {
  defaultWorkflows : list string;
  projectName : string;
}.

Definition projectTypesList (t : ProjectType) : ProjectInfo :=
  match t with
  | KANBAN =>
      {| defaultWorkflows := ["Backlog"; "To Do"; "In Progress"; "Done"];
         projectName := "Kanban" |}
  | SCRUM =>
      {| defaultWorkflows :=
           ["Backlog"; "To Do"; "In Progress"; "Review"; "Done"];
         projectName := "Scrum" |}
  end.

(** ** The Prisma client *)

(** [@default(cuid())]: the id of a new row is one the table does not hold. *)
Definition cuid {V} (table : gmap string V) : string := fresh (dom table).

(** *** workspace *)

(** [workspace.findFirst({ where: { shortName } })]. *)
Definition workspace_findFirst (shortName : string)
    : Promise (option (string * Workspace.t)) :=
  λ st, (inr (snd <$> list_find (λ row, Workspace.shortName row.2 = shortName)
                        (map_to_list (workspaces st))), st).

(** *** project *)

(** Modelled from the spec: the unique constraint that [skipDuplicates]
    consults is declared in the Prisma schema, which is not part of the
    router; the specification has rows with a duplicate title skipped. *)
Definition workflow_duplicate (rows : list Workflow.t) (row : Workflow.t) : bool :=
  bool_decide (Workflow.title row ∈ Workflow.title <$> rows).

(** The rows of a nested [createMany]: a title and an index. *)
Record WorkflowCreateManyInput := mkWorkflowInput {
  data_title : string;
  data_index : Z;
}.

(** [createMany({ data, skipDuplicates })] on the workflows of one project: a
    row that repeats a stored one is left out when [skipDuplicates] is set, and
    fails the whole call when it is not. *)
Fixpoint workflow_createMany (data : list WorkflowCreateManyInput)
    (skipDuplicates : bool) (rows : list Workflow.t) : Error + list Workflow.t :=
  match data with
  | [] => inr rows
  | d :: data' =>
      let row := {| Workflow.title := data_title d;
                    Workflow.index := data_index d;
                    Workflow.issue := [] |} in
      if workflow_duplicate rows row
      then if skipDuplicates
           then workflow_createMany data' skipDuplicates rows
           else inl UniqueConstraintFailed
      else workflow_createMany data' skipDuplicates (rows ++ [row])
  end.

Record ProjectCreateInput := mkProjectCreate {
  create_name : string;
  create_projectType : ProjectType;
  create_projectLeadId : string;
  create_members_connect : string;
  create_workflows_createMany : list WorkflowCreateManyInput;
  create_workflows_skipDuplicates : bool;
  create_workspaceId : option string;
}.

(** [project.create({ data })].  [connect] needs the user it names; a
    [workspaceId] that is [undefined] leaves the column unset.  The call
    returns the new row under its id. *)
Definition project_create (data : ProjectCreateInput)
    : Promise (string * Project.t) :=
  λ st,
    match users st !! create_members_connect data with
    | None => (inl RecordNotFound, st)
    | Some _ =>
        match workflow_createMany (create_workflows_createMany data)
                (create_workflows_skipDuplicates data) [] with
        | inl e => (inl e, st)
        | inr rows =>
            let id := cuid (projects st) in
            let row :=
              {| Project.name := create_name data;
                 Project.projectType := create_projectType data;
                 Project.projectLeadId := create_projectLeadId data;
                 Project.defaultAssigneeId := None;
                 Project.workspaceId := create_workspaceId data;
                 Project.members := {[ create_members_connect data ]};
                 Project.workflows := rows |} in
            (inr (id, row), set_projects (insert id row) st)
        end
    end.

(** [project.findFirst({ where: { id }, include: { projectLead: true } })]. *)
Definition project_findFirst (id : string)
    : Promise (option (Project.t * option User.t)) :=
  λ st, (inr ((λ row, (row, users st !! Project.projectLeadId row))
                <$> projects st !! id), st).

(** [project.delete({ where: { id } })]. *)
Definition project_delete (id : string) : Promise Project.t :=
  λ st,
    match projects st !! id with
    | None => (inl RecordNotFound, st)
    | Some row => (inr row, set_projects (delete id) st)
    end.

(** [project.update({ where: { id }, data: { name, defaultAssigneeId,
    projectLeadId } })]. *)
Definition project_update (id : string) (name : string)
    (defaultAssigneeId : option string) (projectLeadId : string)
    : Promise Project.t :=
  λ st,
    match projects st !! id with
    | None => (inl RecordNotFound, st)
    | Some row =>
        let row' :=
          {| Project.name := name;
             Project.projectType := Project.projectType row;
             Project.projectLeadId := projectLeadId;
             Project.defaultAssigneeId := defaultAssigneeId;
             Project.workspaceId := Project.workspaceId row;
             Project.members := Project.members row;
             Project.workflows := Project.workflows row |} in
        (inr row', set_projects (insert id row') st)
    end.

(** A project of [findMany] with [include: { projectLead: { select: { name,
    image } } }]. *)
Record ProjectWithLead := mkProjectWithLead {
  row_id : string;
  row_project : Project.t;
  row_projectLead : option (string * option string);
}.

(** [project.findMany({ where: { OR: [{ members: { some: { id } } },
    { projectLeadId: id }] }, include: ... })]. *)
Definition project_findMany_of_user (id : string) : Promise (list ProjectWithLead) :=
  λ st,
    (inr ((λ row : string * Project.t,
             {| row_id := row.1;
                row_project := row.2;
                row_projectLead :=
                  (λ u, (User.name u, User.image u))
                    <$> users st !! Project.projectLeadId row.2 |})
            <$> filter (λ row : string * Project.t,
                          id ∈ Project.members row.2
                          ∨ Project.projectLeadId row.2 = id)
                  (map_to_list (projects st))), st).

(** *** user *)

(** [user.update({ where: { id, workspaceId },
    data: { projects: { connect: { id: project } } } })]: the user is looked
    up by [id] in the workspace, and joins the members of [project]. *)
Definition user_update_connect_project (id workspaceId project : string)
    : Promise User.t :=
  λ st,
    match users st !! id with
    | None => (inl RecordNotFound, st)
    | Some u =>
        if bool_decide (User.workspaceId u = Some workspaceId)
        then match projects st !! project with
             | None => (inl RecordNotFound, st)
             | Some row =>
                 let row' :=
                   {| Project.name := Project.name row;
                      Project.projectType := Project.projectType row;
                      Project.projectLeadId := Project.projectLeadId row;
                      Project.defaultAssigneeId := Project.defaultAssigneeId row;
                      Project.workspaceId := Project.workspaceId row;
                      Project.members := {[ id ]} ∪ Project.members row;
                      Project.workflows := Project.workflows row |} in
                 (inr u, set_projects (insert project row') st)
             end
        else (inl RecordNotFound, st)
    end.

(** *** project.findUniqueOrThrow with its workflows *)

(** [_count: { select: { comments, assignees, labels, linkedIssues } }]. *)
Record IssueCount := mkIssueCount {
  count_comments : nat;
  count_assignees : nat;
  count_labels : nat;
  count_linkedIssues : nat;
}.

Definition issue_count (i : Issue.t) : IssueCount :=
  {| count_comments := length (Issue.comments i);
     count_assignees := length (Issue.assignees i);
     count_labels := length (Issue.labels i);
     count_linkedIssues := length (Issue.linkedIssues i) |}.

Record IssueWithLabels := mkIssueWithLabels {
  issue_index : Z;
  issue_labels : list (string * Label.t);
  issue__count : IssueCount;
}.

Record WorkflowWithIssues := mkWorkflowWithIssues {
  workflow_title : string;
  workflow_index : Z;
  workflow_issue : list IssueWithLabels;
}.

(** [orderBy: { index: "asc" }] on issues and on workflows. *)
Definition issue_le (a b : Issue.t) : Prop := (Issue.index a ≤ Issue.index b)%Z.
Definition workflow_le (a b : Workflow.t) : Prop :=
  (Workflow.index a ≤ Workflow.index b)%Z.

#[global] Instance issue_le_dec a b : Decision (issue_le a b).
Proof. unfold issue_le. apply _. Defined.
#[global] Instance workflow_le_dec a b : Decision (workflow_le a b).
Proof. unfold workflow_le. apply _. Defined.

Definition include_issue (st : Store) (i : Issue.t) : IssueWithLabels :=
  {| issue_index := Issue.index i;
     issue_labels := omap (λ id, pair id <$> labels st !! id) (Issue.labels i);
     issue__count := issue_count i |}.

Definition include_workflow (st : Store) (w : Workflow.t) : WorkflowWithIssues :=
  {| workflow_title := Workflow.title w;
     workflow_index := Workflow.index w;
     workflow_issue :=
       include_issue st <$> merge_sort issue_le (Workflow.issue w) |}.

(** [project.findUniqueOrThrow({ where: { id }, select: { workflows: {
    orderBy: { index: "asc" }, include: { issue: { include: ..., orderBy:
    { index: "asc" } } } } } })]. *)
Definition project_findUniqueOrThrow_workflows (id : string)
    : Promise (list WorkflowWithIssues) :=
  λ st,
    match projects st !! id with
    | None => (inl RecordNotFound, st)
    | Some row =>
        (inr (include_workflow st
                <$> merge_sort workflow_le (Project.workflows row)), st)
    end.

(** *** label *)

Definition all_issues (st : Store) : list Issue.t :=
  row ← map_to_list (projects st);
  w ← Project.workflows row.2;
  Workflow.issue w.

Record LabelWithIssues := mkLabelWithIssues {
  label_id : string;
  label_row : Label.t;
  label_issues : list IssueCount;
}.

(** [label.create({ data: { title, color, projectId, description },
    include: { issues: { select: { _count: true } } } })]. *)
Definition label_create (title color projectId : string)
    (description : option string) : Promise LabelWithIssues :=
  λ st,
    let id := cuid (labels st) in
    let row := {| Label.title := title; Label.color := color;
                  Label.projectId := projectId;
                  Label.description := description |} in
    (inr {| label_id := id;
            label_row := row;
            label_issues :=
              issue_count
                <$> filter (λ i, id ∈ Issue.labels i) (all_issues st) |},
     set_labels (insert id row) st).

(** ** The procedures of [projectRouter] *)

(** The inputs are the values the zod schemas accept or refuse: a field
    declared [z.string()] holds a string, and only the length checks of a
    schema can still fail. *)

Module IdInput.
Record t := mk {
  id : string;
}.
End IdInput.

Module ProjectIdInput.
Record t := mk {
  projectId : string;
}.
End ProjectIdInput.

Module CreateProjectInput.
Record t := mk {
  name : string;
  projectType : ProjectType;
  workspaceShortName : string;
}.
End CreateProjectInput.

Module UpdateProjectInput.
Record t := mk {
  id : string;
  name : string;
  defaultAssigneeId : option string;
  projectLeadId : string;
}.
End UpdateProjectInput.

Module AssignUserInput.
Record t := mk {
  workspaceId : string;
  projectId : string;
  userId : string;
}.
End AssignUserInput.

Module CreateLabelInput.
Record t := mk {
  projectId : string;
  title : string;
  color : string;
  description : option string;
}.
End CreateLabelInput.

Definition getUserProjects (ctx : Ctx) : Promise (list ProjectWithLead) :=
  project_findMany_of_user (session_user_id ctx).

Definition createProject (ctx : Ctx) (input : CreateProjectInput.t)
    : Promise (string * Project.t) :=
  let defaultWorkflows :=
    defaultWorkflows (projectTypesList (CreateProjectInput.projectType input)) in
  let* workspace :=
    workspace_findFirst (CreateProjectInput.workspaceShortName input) in
  project_create
    {| create_name := CreateProjectInput.name input;
       create_projectType := CreateProjectInput.projectType input;
       create_projectLeadId := session_user_id ctx;
       create_members_connect := session_user_id ctx;
       create_workflows_createMany :=
         imap (λ index workflow,
                 {| data_title := workflow; data_index := Z.of_nat index |})
           defaultWorkflows;
       create_workflows_skipDuplicates := true;
       create_workspaceId := fst <$> workspace |}.

Definition updateProject (ctx : Ctx) (input : UpdateProjectInput.t)
    : Promise Project.t :=
  project_update (UpdateProjectInput.id input) (UpdateProjectInput.name input)
    (UpdateProjectInput.defaultAssigneeId input)
    (UpdateProjectInput.projectLeadId input).

(** The [try] block returns the promise of [project.delete] without awaiting
    it, so the block yields that promise as a value and it is run once the
    [try] is left; the [throw] of the other branch happens inside the block
    and reaches its [catch]. *)
Definition deleteProject (ctx : Ctx) (input : IdInput.t) : Promise Project.t :=
  let* returned :=
    try_catch
      (let* projectToDelete := project_findFirst (IdInput.id input) in
       if bool_decide (Some (session_user_id ctx)
                       = (Project.projectLeadId ∘ fst) <$> projectToDelete)
       then resolve (project_delete (IdInput.id input))
       else reject (TRPCError UNAUTHORIZED
                      "You Dont have access to delete the Project"))
      (λ err, reject (TRPCError BAD_REQUEST "An unexpected error occurred")) in
  returned.

Definition assignUserToProject (ctx : Ctx) (input : AssignUserInput.t)
    : Promise User.t :=
  user_update_connect_project (AssignUserInput.projectId input)
    (AssignUserInput.workspaceId input) (AssignUserInput.userId input).

(** [getProjectMembers]: [project.findUnique({ where: { id },
    select: { members: true } })]. *)
Definition getProjectMembers (ctx : Ctx) (input : ProjectIdInput.t)
    : Promise (option (list (string * User.t))) :=
  λ st,
    (inr ((λ row, omap (λ id, pair id <$> users st !! id)
                    (elements (Project.members row)))
            <$> projects st !! ProjectIdInput.projectId input), st).

Definition getProjectWorkflows (ctx : Ctx) (input : ProjectIdInput.t)
    : Promise (list WorkflowWithIssues) :=
  project_findUniqueOrThrow_workflows (ProjectIdInput.projectId input).

(** [z.object({ title: z.string().min(4), color: z.string().min(7).max(7),
    ... })]: the issues zod reports on an input, in the order of the
    schema. *)
Definition createProjectLabels_issues (input : CreateLabelInput.t) : list ZodIssue :=
  (if String.length (CreateLabelInput.title input) <? 4
   then [ {| path := "title"; code := too_small |} ] else [])
  ++ (if String.length (CreateLabelInput.color input) <? 7
      then [ {| path := "color"; code := too_small |} ] else [])
  ++ (if 7 <? String.length (CreateLabelInput.color input)
      then [ {| path := "color"; code := too_big |} ] else []).

Definition createProjectLabels (ctx : Ctx) (input : CreateLabelInput.t)
    : Promise LabelWithIssues :=
  match createProjectLabels_issues input with
  | [] =>
      label_create (CreateLabelInput.title input) (CreateLabelInput.color input)
        (CreateLabelInput.projectId input) (CreateLabelInput.description input)
  | issues => reject (ZodError issues)
  end.

(** ** The other procedures of [projectRouter] *)

(** A project of [findMany] with [include: { projectLead: { select: { name }
    } }]. *)
Record ProjectWithLeadName := mkProjectWithLeadName {
  all_id : string;
  all_project : Project.t;
  all_projectLead : option string;
}.

(** [getAllProjects]: [project.findMany({ include: ... })], no [where]. *)
Definition getAllProjects (ctx : Ctx) : Promise (list ProjectWithLeadName) :=
  λ st,
    (inr ((λ row : string * Project.t,
             {| all_id := row.1;
                all_project := row.2;
                all_projectLead :=
                  User.name <$> users st !! Project.projectLeadId row.2 |})
            <$> map_to_list (projects st)), st).

(** [include: { issues: { select: { _count: true } } }] on a label: the
    counts of every issue that carries the label. *)
Definition label_with_issues (st : Store) (row : string * Label.t)
    : LabelWithIssues :=
  {| label_id := row.1;
     label_row := row.2;
     label_issues :=
       issue_count <$> filter (λ i, row.1 ∈ Issue.labels i) (all_issues st) |}.

(** The labels of a project, as the relation [Project.labels] and as
    [where: { projectId }] select them. *)
Definition labels_of_project (st : Store) (projectId : string)
    : list LabelWithIssues :=
  label_with_issues st
    <$> filter (λ row : string * Label.t, Label.projectId row.2 = projectId)
          (map_to_list (labels st)).

(** A project of [findUnique] with [include: { members, projectLead,
    defaultAssignee, labels: { include: { issues: ... } } }]. *)
Record ProjectWithRelations := mkProjectWithRelations {
  full_project : Project.t;
  full_members : list (string * User.t);
  full_projectLead : option User.t;
  full_defaultAssignee : option User.t;
  full_labels : list LabelWithIssues;
}.

(** [getProjectById]: [project.findUnique], which yields [null] for an id
    that matches no project. *)
Definition getProjectById (ctx : Ctx) (input : IdInput.t)
    : Promise (option ProjectWithRelations) :=
  λ st,
    (inr ((λ row,
             {| full_project := row;
                full_members :=
                  omap (λ id, pair id <$> users st !! id)
                    (elements (Project.members row));
                full_projectLead := users st !! Project.projectLeadId row;
                full_defaultAssignee :=
                  Project.defaultAssigneeId row ≫= (users st !!.);
                full_labels := labels_of_project st (IdInput.id input) |})
            <$> projects st !! IdInput.id input), st).

(** [getProjectLabels]: [label.findMany({ where: { projectId }, include: ...
    })]. *)
Definition getProjectLabels (ctx : Ctx) (input : ProjectIdInput.t)
    : Promise (list LabelWithIssues) :=
  λ st, (inr (labels_of_project st (ProjectIdInput.projectId input)), st).

(** Labels and issues are related many to many; the relation is kept in
    [Issue.labels], so deleting a label takes its id out of every issue. *)
Definition issue_disconnect_label (id : string) (i : Issue.t) : Issue.t :=
  {| Issue.index := Issue.index i;
     Issue.labels := filter (λ l, l ≠ id) (Issue.labels i);
     Issue.comments := Issue.comments i;
     Issue.assignees := Issue.assignees i;
     Issue.linkedIssues := Issue.linkedIssues i |}.

Definition workflow_disconnect_label (id : string) (w : Workflow.t) : Workflow.t :=
  {| Workflow.title := Workflow.title w;
     Workflow.index := Workflow.index w;
     Workflow.issue := issue_disconnect_label id <$> Workflow.issue w |}.

Definition project_disconnect_label (id : string) (p : Project.t) : Project.t :=
  {| Project.name := Project.name p;
     Project.projectType := Project.projectType p;
     Project.projectLeadId := Project.projectLeadId p;
     Project.defaultAssigneeId := Project.defaultAssigneeId p;
     Project.workspaceId := Project.workspaceId p;
     Project.members := Project.members p;
     Project.workflows := workflow_disconnect_label id <$> Project.workflows p |}.

(** [label.delete({ where: { id }, include: ... })]: the deleted label is
    returned as it was, with its issues. *)
Definition label_delete (id : string) : Promise LabelWithIssues :=
  λ st,
    match labels st !! id with
    | None => (inl RecordNotFound, st)
    | Some row =>
        (inr (label_with_issues st (id, row)),
         set_labels (delete id)
           (set_projects (fmap (project_disconnect_label id)) st))
    end.

Definition deleteProjectLabel (ctx : Ctx) (input : IdInput.t)
    : Promise LabelWithIssues :=
  label_delete (IdInput.id input).

(** A field declared [.optional().nullable()]: absent, [null], or a
    string. *)
Inductive OptionalNullable :=
  | Undefined
  | Null
  | Value (s : string).

Module UpdateLabelInput.
Record t := mk {
  id : string;
  title : string;
  description : OptionalNullable;
  color : string;
}.
End UpdateLabelInput.

(** [label.update({ where: { id }, data: { title, color, description },
    include: ... })]: a [description] that is [undefined] leaves the column
    as it is, [null] clears it. *)
Definition label_update (id title color : string)
    (description : OptionalNullable) : Promise LabelWithIssues :=
  λ st,
    match labels st !! id with
    | None => (inl RecordNotFound, st)
    | Some row =>
        let row' :=
          {| Label.title := title;
             Label.color := color;
             Label.projectId := Label.projectId row;
             Label.description :=
               match description with
               | Undefined => Label.description row
               | Null => None
               | Value s => Some s
               end |} in
        (inr (label_with_issues st (id, row')), set_labels (insert id row') st)
    end.

(** [z.object({ id: z.string(), title: z.string(), description: ...,
    color: z.string().min(7).max(7) })]. *)
Definition updateProjectLabel_issues (input : UpdateLabelInput.t) : list ZodIssue :=
  (if String.length (UpdateLabelInput.color input) <? 7
   then [ {| path := "color"; code := too_small |} ] else [])
  ++ (if 7 <? String.length (UpdateLabelInput.color input)
      then [ {| path := "color"; code := too_big |} ] else []).

Definition updateProjectLabel (ctx : Ctx) (input : UpdateLabelInput.t)
    : Promise LabelWithIssues :=
  match updateProjectLabel_issues input with
  | [] =>
      label_update (UpdateLabelInput.id input) (UpdateLabelInput.title input)
        (UpdateLabelInput.color input) (UpdateLabelInput.description input)
  | issues => reject (ZodError issues)
  end.

(** ** The members page, [pages/w/[workspaceId]/members.tsx] *)

Module Member.
Record t := mk {
  image : option string;
  id : string;
  name : string;
}.
End Member.

(** The workspace the page reads from its store: what the page uses of it. *)
Module WorkspaceState.
Record t := mk {
  createdById : string;
  members : list Member.t;
}.
End WorkspaceState.

(** Truthiness of a [string | null]: [null] and the empty string are
    falsy. *)
Definition truthy (s : option string) : bool :=
  match s with
  | Some s => negb (String.eqb s "")
  | None => false
  end.

(** [a || b] on a [string | null] and a string. *)
Definition or_else (a : option string) (b : string) : string :=
  match a with
  | Some s => if truthy a then s else b
  | None => b
  end.

(** What the avatar of a row holds: the image of the member, or the name. *)
Inductive AvatarContent :=
  | AvatarImage (src alt : string)
  | AvatarName (name : string).

(** The render function of the column "User": the avatar and the name beside
    it. *)
Definition render_user (record : Member.t) : AvatarContent * string :=
  (if truthy (Member.image record)
   then AvatarImage (or_else (Member.image record) "/logo.svg") (Member.id record)
   else AvatarName (Member.name record),
   Member.name record).

(** The render function of the column "Actions": the text of the button. *)
Definition render_action (workspace : option WorkspaceState.t)
    (record : Member.t) : string :=
  if bool_decide (WorkspaceState.createdById <$> workspace
                  = Some (Member.id record))
  then "Leave" else "Remove".

(** A row of the table: its key, and what its two columns render. *)
Record MemberRow := mkMemberRow {
  rowKey : string;
  user_cell : AvatarContent * string;
  action_cell : string;
}.

(** [<Table columns={columns} dataSource={workspace?.members} rowKey="id" />]:
    no row when the workspace is not loaded. *)
Definition Members_table (workspace : option WorkspaceState.t) : list MemberRow :=
  (λ record,
     {| rowKey := Member.id record;
        user_cell := render_user record;
        action_cell := render_action workspace record |})
    <$> default [] (WorkspaceState.members <$> workspace).

(** The number shown in the title, [workspace?.members.length]: nothing when
    the workspace is not loaded. *)
Definition Members_count (workspace : option WorkspaceState.t) : option nat :=
  (length ∘ WorkspaceState.members) <$> workspace.

(** ** A sample store *)

(** Three users in the workspace "acme"; project [p1] is led by [u1] and has
    [u2] as a member, project [p2] is led by [u3]. *)
Definition sample_user (name : string) : User.t :=
  {| User.name := name; User.image := None; User.workspaceId := Some "w1" |}.

Definition sample_issue (index : Z) : Issue.t :=
  {| Issue.index := index; Issue.labels := ["l1"]; Issue.comments := [];
     Issue.assignees := ["u2"]; Issue.linkedIssues := [] |}.

Definition sample_p1 : Project.t :=
  {| Project.name := "Board"; Project.projectType := KANBAN;
     Project.projectLeadId := "u1"; Project.defaultAssigneeId := None;
     Project.workspaceId := Some "w1"; Project.members := {[ "u2" ]};
     Project.workflows :=
       [ {| Workflow.title := "Done"; Workflow.index := 2;
            Workflow.issue := [] |};
         {| Workflow.title := "Backlog"; Workflow.index := 0;
            Workflow.issue := [sample_issue 5; sample_issue 1; sample_issue 3] |};
         {| Workflow.title := "To Do"; Workflow.index := 1;
            Workflow.issue := [] |} ] |}.

Definition sample_p2 : Project.t :=
  {| Project.name := "Sprints"; Project.projectType := SCRUM;
     Project.projectLeadId := "u3"; Project.defaultAssigneeId := Some "u3";
     Project.workspaceId := Some "w1"; Project.members := ∅;
     Project.workflows := [] |}.

Definition sample_store : Store :=
  {| users := <["u1" := sample_user "Asha"]>
                (<["u2" := sample_user "Bo"]>
                   (<["u3" := sample_user "Chen"]> ∅));
     workspaces :=
       {[ "w1" := {| Workspace.shortName := "acme";
                     Workspace.createdById := "u1";
                     Workspace.members := {[ "u1"; "u2"; "u3" ]} |} ]};
     projects := <["p1" := sample_p1]> (<["p2" := sample_p2]> ∅);
     labels := {[ "l1" := {| Label.title := "urgent"; Label.color := "#ff0000";
                             Label.projectId := "p1";
                             Label.description := None |} ]} |}.

(** Inputs used in the examples below. *)
Definition sprint_board : CreateProjectInput.t :=
  {| CreateProjectInput.name := "Sprint Board";
     CreateProjectInput.projectType := SCRUM;
     CreateProjectInput.workspaceShortName := "acme" |}.

Definition orphan_board : CreateProjectInput.t :=
  {| CreateProjectInput.name := "Orphan";
     CreateProjectInput.projectType := KANBAN;
     CreateProjectInput.workspaceShortName := "nowhere" |}.

Definition assign_u2_to_p2 : AssignUserInput.t :=
  {| AssignUserInput.workspaceId := "w1";
     AssignUserInput.projectId := "p2";
     AssignUserInput.userId := "u2" |}.

Definition short_title : CreateLabelInput.t :=
  {| CreateLabelInput.projectId := "p1"; CreateLabelInput.title := "bug";
     CreateLabelInput.color := "#00ff00"; CreateLabelInput.description := None |}.

Definition long_color : CreateLabelInput.t :=
  {| CreateLabelInput.projectId := "p1"; CreateLabelInput.title := "defect";
     CreateLabelInput.color := "#00ff00aa";
     CreateLabelInput.description := None |}.

Definition good_label : CreateLabelInput.t :=
  {| CreateLabelInput.projectId := "p1"; CreateLabelInput.title := "defect";
     CreateLabelInput.color := "#00ff00";
     CreateLabelInput.description := Some "something is broken" |}.

Definition retitle_p1 : UpdateProjectInput.t :=
  {| UpdateProjectInput.id := "p1"; UpdateProjectInput.name := "Roadmap";
     UpdateProjectInput.defaultAssigneeId := Some "u2";
     UpdateProjectInput.projectLeadId := "u2" |}.

(** ** Vocabulary of the statements *)

(** The error every rejected [deleteProject] carries. *)
Definition unexpected_error : Error :=
  TRPCError BAD_REQUEST "An unexpected error occurred".

(** A workflow as [createProject] stores it: no issue yet. *)
Definition workflow_row (title : string) (index : Z) : Workflow.t :=
  {| Workflow.title := title; Workflow.index := index; Workflow.issue := [] |}.

(** Ascending order of index on the rows [getProjectWorkflows] returns. *)
Definition by_workflow_index (a b : WorkflowWithIssues) : Prop :=
  (workflow_index a ≤ workflow_index b)%Z.
Definition by_issue_index (a b : IssueWithLabels) : Prop :=
  (issue_index a ≤ issue_index b)%Z.

(** A label is listed in the rows a procedure returned. *)
Definition label_listed (rows : list LabelWithIssues) (id : string)
    (row : Label.t) : Prop :=
  ∃ r, r ∈ rows ∧ label_id r = id ∧ label_row r = row.

(** A project is listed in the rows [getUserProjects] returned. *)
Definition project_listed (rows : list ProjectWithLead) (id : string) : Prop :=
  ∃ r, r ∈ rows ∧ row_id r = id.

(** Every stored label has a color of 7 characters; a title of at least 4. *)
Definition colors_valid (st : Store) : Prop :=
  ∀ id row, labels st !! id = Some row → String.length (Label.color row) = 7.
Definition titles_valid (st : Store) : Prop :=
  ∀ id row, labels st !! id = Some row → 4 ≤ String.length (Label.title row).

(** The label ids that issues carry are ids of stored labels. *)
Definition issue_labels_stored (st : Store) : Prop :=
  ∀ i l, i ∈ all_issues st → l ∈ Issue.labels i → is_Some (labels st !! l).

Definition rename_l1 : UpdateLabelInput.t :=
  {| UpdateLabelInput.id := "l1"; UpdateLabelInput.title := "p0";
     UpdateLabelInput.description := Undefined;
     UpdateLabelInput.color := "#0000ff" |}.

Definition takeover_p1 : UpdateProjectInput.t :=
  {| UpdateProjectInput.id := "p1"; UpdateProjectInput.name := "Board";
     UpdateProjectInput.defaultAssigneeId := None;
     UpdateProjectInput.projectLeadId := "u3" |}.

Definition sample_workspace : WorkspaceState.t :=
  {| WorkspaceState.createdById := "u1";
     WorkspaceState.members :=
       [ {| Member.image := Some "/avatars/asha.png"; Member.id := "u1";
            Member.name := "Asha" |};
         {| Member.image := None; Member.id := "u2"; Member.name := "Bo" |};
         {| Member.image := Some ""; Member.id := "u3";
            Member.name := "Chen" |} ] |}.

(** What [label.update] stores for a label: the title and color of the input,
    the project of the stored row, and the description as the input says. *)
Definition updated_label (input : UpdateLabelInput.t) (row : Label.t) : Label.t :=
  {| Label.title := UpdateLabelInput.title input;
     Label.color := UpdateLabelInput.color input;
     Label.projectId := Label.projectId row;
     Label.description :=
       match UpdateLabelInput.description input with
       | Undefined => Label.description row
       | Null => None
       | Value s => Some s
       end |}.

(** ** deleteProject *)

(** The three paths of [deleteProject]: the project is absent, it is led by
    someone else, or it is led by the caller. *)
Lemma deleteProject_cases ctx input st :
  deleteProject ctx input st =
  match projects st !! IdInput.id input with
  | None => (inl unexpected_error, st)
  | Some row =>
      if bool_decide (session_user_id ctx = Project.projectLeadId row)
      then (inr row, set_projects (delete (IdInput.id input)) st)
      else (inl unexpected_error, st)
  end.
Proof.
  unfold deleteProject, await, try_catch, project_findFirst, project_delete,
    resolve, reject; simpl.
  destruct (projects st !! IdInput.id input) as [row|] eqn:Hrow; simpl.
  - destruct (decide (session_user_id ctx = Project.projectLeadId row)) as [Heq|Hne].
    + rewrite !bool_decide_eq_true_2 by congruence. simpl. by rewrite Hrow.
    + rewrite !bool_decide_eq_false_2 by congruence. done.
  - done.
Qed.

(** The call resolves exactly when the project exists and the caller leads
    it, and it then removes that project and nothing else. *)
Lemma deleteProject_resolves_iff ctx input st row st' :
  deleteProject ctx input st = (inr row, st') ↔
  projects st !! IdInput.id input = Some row
  ∧ Project.projectLeadId row = session_user_id ctx
  ∧ st' = set_projects (delete (IdInput.id input)) st.
Proof.
  rewrite deleteProject_cases.
  destruct (projects st !! IdInput.id input) as [row0|].
  - case_bool_decide as Hlead.
    + split.
      * by intros [= <- <-].
      * by intros ([= <-] & _ & ->).
    + split; [done|]. intros ([= <-] & Heq & _). by destruct Hlead.
  - split; [done|]. by intros [? _].
Qed.

(** Every rejection of [deleteProject] is the [BAD_REQUEST] of its [catch],
    and leaves the store as it was. *)
Lemma deleteProject_rejected ctx input st e st' :
  deleteProject ctx input st = (inl e, st') →
  e = unexpected_error ∧ st' = st.
Proof.
  rewrite deleteProject_cases.
  destruct (projects st !! IdInput.id input) as [row|].
  - case_bool_decide; [done|]. by intros [= <- <-].
  - by intros [= <- <-].
Qed.

(** No call of [deleteProject] is rejected with [UNAUTHORIZED]. *)
Lemma deleteProject_never_unauthorized ctx input st message st' :
  deleteProject ctx input st ≠ (inl (TRPCError UNAUTHORIZED message), st').
Proof. intros Hrun. by destruct (deleteProject_rejected _ _ _ _ _ Hrun). Qed.

(** C1 (code defect): [u2] is not the lead of [p1], and [deleteProject]
    rejects the call with [BAD_REQUEST]: the [UNAUTHORIZED] error thrown in the
    [try] block is caught by the procedure's own [catch] and replaced. *)
Theorem deleteProject_not_lead_bad_request :
  projects sample_store !! "p1" = Some sample_p1
  ∧ Project.projectLeadId sample_p1 ≠ "u2"
  ∧ deleteProject (mkCtx "u2") (IdInput.mk "p1") sample_store
    = (inl (TRPCError BAD_REQUEST "An unexpected error occurred"), sample_store).
Proof. split; [reflexivity|]. split; [discriminate|]. reflexivity. Qed.

(** The lead of [p1] deletes it. *)
Example deleteProject_by_lead :
  deleteProject (mkCtx "u1") (IdInput.mk "p1") sample_store
  = (inr sample_p1, set_projects (delete "p1") sample_store).
Proof. reflexivity. Qed.

(** C4: deleting an id that matches no project is rejected with
    [BAD_REQUEST]. *)
Theorem deleteProject_absent_bad_request ctx input st :
  projects st !! IdInput.id input = None →
  deleteProject ctx input st
  = (inl (TRPCError BAD_REQUEST "An unexpected error occurred"), st).
Proof. intros Hnone. by rewrite deleteProject_cases, Hnone. Qed.

(** The sample store has no project [p9]. *)
Lemma deleteProject_p9_bad_request :
  deleteProject (mkCtx "u1") (IdInput.mk "p9") sample_store
  = (inl (TRPCError BAD_REQUEST "An unexpected error occurred"), sample_store).
Proof.
  apply (deleteProject_absent_bad_request (mkCtx "u1") (IdInput.mk "p9")
           sample_store).
  reflexivity.
Defined.

(** C10: a rejected [deleteProject] leaves the store as it was. *)
Theorem deleteProject_rejected_store_unchanged ctx input st e st' :
  deleteProject ctx input st = (inl e, st') → st' = st.
Proof. intros Hrun. by destruct (deleteProject_rejected _ _ _ _ _ Hrun). Qed.

(** [u2] is a member of [p1] and not its lead. *)
Lemma deleteProject_by_member_keeps_store :
  (deleteProject (mkCtx "u2") (IdInput.mk "p1") sample_store).2 = sample_store.
Proof.
  apply (deleteProject_rejected_store_unchanged (mkCtx "u2") (IdInput.mk "p1")
           sample_store unexpected_error).
  reflexivity.
Defined.

(** ** createProject *)

(** The workflows [createProject] stores for a project type. *)
Lemma createMany_defaultWorkflows t :
  workflow_createMany
    (imap (λ index workflow,
             {| data_title := workflow; data_index := Z.of_nat index |})
       (defaultWorkflows (projectTypesList t))) true []
  = inr match t with
        | KANBAN => [workflow_row "Backlog" 0; workflow_row "To Do" 1;
                     workflow_row "In Progress" 2; workflow_row "Done" 3]
        | SCRUM => [workflow_row "Backlog" 0; workflow_row "To Do" 1;
                    workflow_row "In Progress" 2; workflow_row "Review" 3;
                    workflow_row "Done" 4]
        end.
Proof. destruct t; vm_compute; reflexivity. Qed.

Lemma cuid_fresh {V} (table : gmap string V) : table !! cuid table = None.
Proof. apply not_elem_of_dom. unfold cuid. apply is_fresh. Qed.

Lemma workspace_findFirst_None shortName st :
  (∀ id w, workspaces st !! id = Some w → Workspace.shortName w ≠ shortName) →
  workspace_findFirst shortName st = (inr None, st).
Proof.
  intros Hno. unfold workspace_findFirst.
  replace (list_find _ _) with (@None (nat * (string * Workspace.t))); [done|].
  symmetry. apply list_find_None, Forall_forall.
  intros [id w] Hin%elem_of_map_to_list. simpl. by apply (Hno id).
Qed.

(** A caller that is a stored user gets the project created, whatever the
    workspace lookup found. *)
Lemma createProject_resolves ctx input st :
  is_Some (users st !! session_user_id ctx) →
  ∃ workspace rows,
    workspace_findFirst (CreateProjectInput.workspaceShortName input) st
    = (inr workspace, st)
    ∧ workflow_createMany
        (imap (λ index workflow,
                 {| data_title := workflow; data_index := Z.of_nat index |})
           (defaultWorkflows
              (projectTypesList (CreateProjectInput.projectType input))))
        true [] = inr rows
    ∧ let row :=
        {| Project.name := CreateProjectInput.name input;
           Project.projectType := CreateProjectInput.projectType input;
           Project.projectLeadId := session_user_id ctx;
           Project.defaultAssigneeId := None;
           Project.workspaceId := fst <$> workspace;
           Project.members := {[ session_user_id ctx ]};
           Project.workflows := rows |} in
      createProject ctx input st
      = (inr (cuid (projects st), row),
         set_projects (insert (cuid (projects st)) row) st).
Proof.
  intros [u Hu].
  unfold createProject, await.
  destruct (workspace_findFirst _ st) as [r st0] eqn:Hws.
  assert (∃ workspace, r = inr workspace ∧ st0 = st) as (workspace & -> & ->).
  { unfold workspace_findFirst in Hws. inversion Hws. eauto. }
  exists workspace. eexists. split; [done|].
  split; [apply createMany_defaultWorkflows|].
  unfold project_create; cbn [create_members_connect create_workflows_createMany
    create_workflows_skipDuplicates create_name create_projectType
    create_projectLeadId create_workspaceId].
  rewrite Hu, createMany_defaultWorkflows. reflexivity.
Qed.

(** C2: [createProject] stores, under a new id, a project whose workflows are
    the template of its type, each with its position as index, led by the
    caller and with the caller as its member. *)
Theorem createProject_default_workflows ctx input st :
  is_Some (users st !! session_user_id ctx) →
  ∃ id row,
    createProject ctx input st = (inr (id, row), set_projects (insert id row) st)
    ∧ projects st !! id = None
    ∧ Project.workflows row =
        match CreateProjectInput.projectType input with
        | KANBAN => [workflow_row "Backlog" 0; workflow_row "To Do" 1;
                     workflow_row "In Progress" 2; workflow_row "Done" 3]
        | SCRUM => [workflow_row "Backlog" 0; workflow_row "To Do" 1;
                    workflow_row "In Progress" 2; workflow_row "Review" 3;
                    workflow_row "Done" 4]
        end
    ∧ Workflow.title <$> Project.workflows row
      = defaultWorkflows (projectTypesList (CreateProjectInput.projectType input))
    ∧ (∀ i w, Project.workflows row !! i = Some w →
              Workflow.index w = Z.of_nat i)
    ∧ Project.projectType row = CreateProjectInput.projectType input
    ∧ Project.projectLeadId row = session_user_id ctx
    ∧ session_user_id ctx ∈ Project.members row.
Proof.
  intros Huser.
  destruct (createProject_resolves ctx input st Huser)
    as (workspace & rows & _ & Hrows & Hrun).
  rewrite createMany_defaultWorkflows in Hrows. injection Hrows as <-.
  eexists _, _. split; [exact Hrun|].
  split; [apply cuid_fresh|]. cbn [Project.workflows Project.projectType
    Project.projectLeadId Project.members].
  split; [done|].
  split; [by destruct (CreateProjectInput.projectType input)|].
  split; [|split; [done|split; [done|set_solver]]].
  intros i w.
  destruct (CreateProjectInput.projectType input);
    do 6 (destruct i as [|i]; [intros [= <-]; reflexivity|]); try done.
Qed.

(** The scenario of the specification: [u1] creates a SCRUM project. *)
Lemma createProject_sprint_board_workflows :
  ∃ id row,
    createProject (mkCtx "u1") sprint_board sample_store
    = (inr (id, row), set_projects (insert id row) sample_store)
    ∧ projects sample_store !! id = None
    ∧ Project.workflows row =
        [workflow_row "Backlog" 0; workflow_row "To Do" 1;
         workflow_row "In Progress" 2; workflow_row "Review" 3;
         workflow_row "Done" 4]
    ∧ Workflow.title <$> Project.workflows row
      = ["Backlog"; "To Do"; "In Progress"; "Review"; "Done"]
    ∧ (∀ i w, Project.workflows row !! i = Some w →
              Workflow.index w = Z.of_nat i)
    ∧ Project.projectType row = SCRUM
    ∧ Project.projectLeadId row = "u1"
    ∧ "u1" ∈ Project.members row.
Proof.
  apply (createProject_default_workflows (mkCtx "u1") sprint_board sample_store).
  exists (sample_user "Asha"). reflexivity.
Defined.

(** The scenario of the specification, evaluated: the workspace "acme" is
    found, and the members of the new project are the caller alone. *)
Example createProject_sprint_board :
  ∃ id,
    createProject (mkCtx "u1") sprint_board sample_store
    = (inr (id,
            {| Project.name := "Sprint Board"; Project.projectType := SCRUM;
               Project.projectLeadId := "u1";
               Project.defaultAssigneeId := None;
               Project.workspaceId := Some "w1";
               Project.members := {[ "u1" ]};
               Project.workflows :=
                 [workflow_row "Backlog" 0; workflow_row "To Do" 1;
                  workflow_row "In Progress" 2; workflow_row "Review" 3;
                  workflow_row "Done" 4] |}),
       set_projects
         (insert id
            {| Project.name := "Sprint Board"; Project.projectType := SCRUM;
               Project.projectLeadId := "u1";
               Project.defaultAssigneeId := None;
               Project.workspaceId := Some "w1";
               Project.members := {[ "u1" ]};
               Project.workflows :=
                 [workflow_row "Backlog" 0; workflow_row "To Do" 1;
                  workflow_row "In Progress" 2; workflow_row "Review" 3;
                  workflow_row "Done" 4] |}) sample_store).
Proof. exists (cuid (projects sample_store)). vm_compute. reflexivity. Qed.

(** C5: when no workspace has the short name of the input, [createProject]
    still resolves and stores, under a new id and as the only change to the
    store, the project the input describes: its name and type, the caller as
    lead and only member, the workflows of the template, and no workspace
    reference. *)
Theorem createProject_unknown_workspace ctx input st :
  is_Some (users st !! session_user_id ctx) →
  (∀ id w, workspaces st !! id = Some w →
           Workspace.shortName w ≠ CreateProjectInput.workspaceShortName input) →
  ∃ id row st',
    createProject ctx input st = (inr (id, row), st')
    ∧ projects st !! id = None
    ∧ st' = set_projects (insert id row) st
    ∧ projects st' !! id = Some row
    ∧ Project.workspaceId row = None
    ∧ row =
        {| Project.name := CreateProjectInput.name input;
           Project.projectType := CreateProjectInput.projectType input;
           Project.projectLeadId := session_user_id ctx;
           Project.defaultAssigneeId := None;
           Project.workspaceId := None;
           Project.members := {[ session_user_id ctx ]};
           Project.workflows :=
             match CreateProjectInput.projectType input with
             | KANBAN => [workflow_row "Backlog" 0; workflow_row "To Do" 1;
                          workflow_row "In Progress" 2; workflow_row "Done" 3]
             | SCRUM => [workflow_row "Backlog" 0; workflow_row "To Do" 1;
                         workflow_row "In Progress" 2; workflow_row "Review" 3;
                         workflow_row "Done" 4]
             end |}.
Proof.
  intros Huser Hno.
  destruct (createProject_resolves ctx input st Huser)
    as (workspace & rows & Hws & Hrows & Hrun).
  rewrite (workspace_findFirst_None _ _ Hno) in Hws. injection Hws as <-.
  rewrite createMany_defaultWorkflows in Hrows. injection Hrows as <-.
  eexists _, _, _. split; [exact Hrun|].
  split; [apply cuid_fresh|]. split; [reflexivity|].
  split; [|split; reflexivity].
  unfold set_projects; cbn [projects]. apply lookup_insert_eq.
Qed.

(** No workspace of the sample store is called "nowhere". *)
Lemma createProject_orphan_board :
  ∃ id row st',
    createProject (mkCtx "u2") orphan_board sample_store = (inr (id, row), st')
    ∧ projects sample_store !! id = None
    ∧ st' = set_projects (insert id row) sample_store
    ∧ projects st' !! id = Some row
    ∧ Project.workspaceId row = None
    ∧ row =
        {| Project.name := "Orphan";
           Project.projectType := KANBAN;
           Project.projectLeadId := "u2";
           Project.defaultAssigneeId := None;
           Project.workspaceId := None;
           Project.members := {[ "u2" ]};
           Project.workflows :=
             [workflow_row "Backlog" 0; workflow_row "To Do" 1;
              workflow_row "In Progress" 2; workflow_row "Done" 3] |}.
Proof.
  apply (createProject_unknown_workspace (mkCtx "u2") orphan_board sample_store).
  - exists (sample_user "Bo"). reflexivity.
  - intros id w Hw.
    destruct (decide (id = "w1")) as [->|Hne].
    + vm_compute in Hw. injection Hw as <-. discriminate.
    + unfold sample_store in Hw; cbn [workspaces] in Hw.
      by rewrite lookup_singleton_ne in Hw.
Defined.

(** ** assignUserToProject *)

(** What the procedure does when it resolves: the row it updates is the user
    whose id is the input's [projectId], and the project that user joins is
    the one whose id is the input's [userId]. *)
Lemma assignUserToProject_resolves ctx input st u st' :
  assignUserToProject ctx input st = (inr u, st') →
  users st !! AssignUserInput.projectId input = Some u
  ∧ ∃ row row',
      projects st !! AssignUserInput.userId input = Some row
      ∧ projects st' !! AssignUserInput.userId input = Some row'
      ∧ Project.members row'
        = {[ AssignUserInput.projectId input ]} ∪ Project.members row.
Proof.
  unfold assignUserToProject, user_update_connect_project.
  destruct (users st !! _) as [u0|]; [|done].
  case_bool_decide; [|done].
  destruct (projects st !! _) as [row|] eqn:Hrow; [|done].
  intros [= <- <-]. split; [done|].
  eexists row, _. split; [done|]. split; [apply lookup_insert_eq|done].
Qed.

(** C3 (code defect): asked to assign the stored user [u2] to the stored
    project [p2], the procedure looks for a user with id [p2], finds none and
    is rejected; [u2] is not a member of [p2] afterwards. *)
Theorem assignUserToProject_swapped_keys :
  is_Some (users sample_store !! "u2")
  ∧ is_Some (projects sample_store !! "p2")
  ∧ ∃ st',
      assignUserToProject (mkCtx "u3") assign_u2_to_p2 sample_store
      = (inl RecordNotFound, st')
      ∧ (∀ row, projects st' !! "p2" = Some row → "u2" ∉ Project.members row)
      ∧ getProjectMembers (mkCtx "u3") (ProjectIdInput.mk "p2") st'
        = (inr (Some []), st').
Proof.
  split; [by eexists|]. split; [by eexists|].
  exists sample_store. split; [reflexivity|]. split; [|reflexivity].
  intros row. change (projects sample_store !! "p2") with (Some sample_p2).
  intros [= <-]. cbn [sample_p2 Project.members]. set_solver.
Qed.

(** With the two ids exchanged in the input, the same call adds [u2] to the
    members of [p2]. *)
Example assignUserToProject_exchanged :
  ∃ st',
    assignUserToProject (mkCtx "u3")
      {| AssignUserInput.workspaceId := "w1";
         AssignUserInput.projectId := "u2";
         AssignUserInput.userId := "p2" |} sample_store
    = (inr (sample_user "Bo"), st')
    ∧ getProjectMembers (mkCtx "u3") (ProjectIdInput.mk "p2") st'
      = (inr (Some [("u2", sample_user "Bo")]), st').
Proof. eexists. split; [reflexivity|]. vm_compute. reflexivity. Qed.

(** ** getProjectWorkflows *)

#[global] Instance workflow_le_total : Total workflow_le.
Proof. intros a b. unfold workflow_le. lia. Qed.
#[global] Instance workflow_le_trans : Transitive workflow_le.
Proof. intros a b c. unfold workflow_le. lia. Qed.
#[global] Instance issue_le_total : Total issue_le.
Proof. intros a b. unfold issue_le. lia. Qed.
#[global] Instance issue_le_trans : Transitive issue_le.
Proof. intros a b c. unfold issue_le. lia. Qed.

Lemma include_workflow_issues_sorted st w :
  StronglySorted by_issue_index (workflow_issue (include_workflow st w)).
Proof.
  unfold include_workflow; cbn [workflow_issue].
  apply (StronglySorted_fmap _ issue_le); [done|].
  apply (StronglySorted_merge_sort issue_le).
Qed.

Lemma include_workflows_sorted st ws :
  StronglySorted by_workflow_index
    (include_workflow st <$> merge_sort workflow_le ws).
Proof.
  apply (StronglySorted_fmap _ workflow_le); [done|].
  apply (StronglySorted_merge_sort workflow_le).
Qed.

(** C6: for a stored project the call resolves with the project's workflows,
    each with its title and index, in ascending order of index; each holds
    its issues in ascending order of index, every issue with its own index,
    its stored labels and the counts of its relations.  For an absent project
    the call is rejected with the client's not-found error. *)
Theorem getProjectWorkflows_sorted ctx input st :
  (∀ row, projects st !! ProjectIdInput.projectId input = Some row →
     ∃ rows ws,
       getProjectWorkflows ctx input st = (inr rows, st)
       ∧ ws ≡ₚ Project.workflows row
       ∧ StronglySorted workflow_le ws
       ∧ Forall2 (λ r w,
            workflow_title r = Workflow.title w
            ∧ workflow_index r = Workflow.index w
            ∧ ∃ issues,
                issues ≡ₚ Workflow.issue w
                ∧ StronglySorted issue_le issues
                ∧ Forall2 (λ out i,
                     issue_index out = Issue.index i
                     ∧ issue_labels out
                       = omap (λ id, pair id <$> labels st !! id)
                           (Issue.labels i)
                     ∧ issue__count out
                       = {| count_comments := length (Issue.comments i);
                            count_assignees := length (Issue.assignees i);
                            count_labels := length (Issue.labels i);
                            count_linkedIssues :=
                              length (Issue.linkedIssues i) |})
                    (workflow_issue r) issues)
           rows ws
       ∧ StronglySorted by_workflow_index rows
       ∧ Forall (λ r, StronglySorted by_issue_index (workflow_issue r)) rows)
  ∧ (projects st !! ProjectIdInput.projectId input = None →
     getProjectWorkflows ctx input st = (inl RecordNotFound, st)).
Proof.
  unfold getProjectWorkflows, project_findUniqueOrThrow_workflows. split.
  - intros row ->.
    exists (include_workflow st <$> merge_sort workflow_le (Project.workflows row)),
      (merge_sort workflow_le (Project.workflows row)).
    split; [done|]. split; [apply merge_sort_Permutation|].
    split; [apply (StronglySorted_merge_sort workflow_le)|].
    split; [|split; [apply include_workflows_sorted|]].
    + apply Forall2_fmap_l, Forall_Forall2_diag, Forall_forall.
      intros w _. simpl. repeat split.
      exists (merge_sort issue_le (Workflow.issue w)).
      split; [apply merge_sort_Permutation|].
      split; [apply (StronglySorted_merge_sort issue_le)|].
      apply Forall2_fmap_l, Forall_Forall2_diag, Forall_forall.
      intros i _. done.
    + apply Forall_fmap, Forall_forall. intros w _.
      apply include_workflow_issues_sorted.
  - by intros ->.
Qed.

Example getProjectWorkflows_p1 :
  ∃ rows,
    getProjectWorkflows (mkCtx "u2") (ProjectIdInput.mk "p1") sample_store = (inr rows, sample_store)
    ∧ (λ r, (workflow_title r, workflow_index r,
             issue_index <$> workflow_issue r)) <$> rows
      = [("Backlog", 0%Z, [1%Z; 3%Z; 5%Z]); ("To Do", 1%Z, []);
         ("Done", 2%Z, [])].
Proof. eexists. split; [reflexivity|]. vm_compute. reflexivity. Qed.

Example getProjectWorkflows_p9 :
  getProjectWorkflows (mkCtx "u2") (ProjectIdInput.mk "p9") sample_store
  = (inl RecordNotFound, sample_store).
Proof. reflexivity. Qed.

(** ** getUserProjects *)

(** C7: [getUserProjects] resolves with one row for each stored project that
    has the caller among its members or as its lead, and with no other row. *)
Theorem getUserProjects_exactly ctx st :
  ∃ rows,
    getUserProjects ctx st = (inr rows, st)
    ∧ NoDup (row_id <$> rows)
    ∧ ∀ id row,
        (∃ r, r ∈ rows ∧ row_id r = id ∧ row_project r = row)
        ↔ projects st !! id = Some row
          ∧ (session_user_id ctx ∈ Project.members row
             ∨ Project.projectLeadId row = session_user_id ctx).
Proof.
  unfold getUserProjects, project_findMany_of_user.
  eexists. split; [reflexivity|]. split.
  - rewrite <- list_fmap_compose.
    apply (sublist_NoDup _ (map_to_list (projects st)).*1).
    + apply NoDup_fst_map_to_list.
    + apply (fmap_sublist fst), sublist_filter.
  - intros id row. split.
    + intros (r & Hr & <- & <-).
      apply list_elem_of_fmap in Hr as ([id row] & -> & Hin).
      apply list_elem_of_filter in Hin as [Hp Hin].
      apply elem_of_map_to_list in Hin. done.
    + intros [Hrow Hp].
      exists {| row_id := id; row_project := row;
                row_projectLead :=
                  (λ u, (User.name u, User.image u))
                    <$> users st !! Project.projectLeadId row |}.
      split; [|done].
      apply list_elem_of_fmap. exists (id, row). split; [reflexivity|].
      apply list_elem_of_filter. split; [exact Hp|].
      by apply elem_of_map_to_list.
Qed.

(** The scenario of the specification: [p1] has lead [u1] and member [u2],
    [p2] has lead [u3]; the projects of [u2] are [p1] alone. *)
Example getUserProjects_u2 :
  getUserProjects (mkCtx "u2") sample_store
  = (inr [ {| row_id := "p1"; row_project := sample_p1;
              row_projectLead := Some ("Asha", None) |} ], sample_store).
Proof. vm_compute. reflexivity. Qed.

(** ** createProjectLabels *)

Lemma createProjectLabels_issues_nil input :
  createProjectLabels_issues input = [] ↔
  ¬ (String.length (CreateLabelInput.title input) < 4
     ∨ String.length (CreateLabelInput.color input) ≠ 7).
Proof.
  unfold createProjectLabels_issues.
  destruct (Nat.ltb_spec (String.length (CreateLabelInput.title input)) 4);
    destruct (Nat.ltb_spec (String.length (CreateLabelInput.color input)) 7);
    destruct (Nat.ltb_spec 7 (String.length (CreateLabelInput.color input)));
    simpl; split; try done; try lia; intros Hvalid; exfalso; apply Hvalid; lia.
Qed.

(** C8: an input whose title has fewer than 4 characters or whose color does
    not have exactly 7 is refused by the input parser, with the same issues
    whatever the store holds and with the store untouched; any other input
    has its label stored under a new id. *)
Theorem createProjectLabels_validation ctx input :
  (String.length (CreateLabelInput.title input) < 4
   ∨ String.length (CreateLabelInput.color input) ≠ 7 →
   ∃ issues,
     issues ≠ []
     ∧ ∀ st, createProjectLabels ctx input st = (inl (ZodError issues), st))
  ∧ (¬ (String.length (CreateLabelInput.title input) < 4
        ∨ String.length (CreateLabelInput.color input) ≠ 7) →
     ∀ st, ∃ created,
       createProjectLabels ctx input st
       = (inr created, set_labels (insert (label_id created) (label_row created)) st)
       ∧ labels st !! label_id created = None
       ∧ label_row created
         = {| Label.title := CreateLabelInput.title input;
              Label.color := CreateLabelInput.color input;
              Label.projectId := CreateLabelInput.projectId input;
              Label.description := CreateLabelInput.description input |}).
Proof.
  unfold createProjectLabels. split.
  - intros Hbad. exists (createProjectLabels_issues input).
    assert (createProjectLabels_issues input ≠ []) as Hne.
    { intros Hnil%createProjectLabels_issues_nil. done. }
    split; [done|]. intros st.
    by destruct (createProjectLabels_issues input).
  - intros Hok%createProjectLabels_issues_nil st. rewrite Hok.
    unfold label_create.
    exists {| label_id := cuid (labels st);
              label_row :=
                {| Label.title := CreateLabelInput.title input;
                   Label.color := CreateLabelInput.color input;
                   Label.projectId := CreateLabelInput.projectId input;
                   Label.description := CreateLabelInput.description input |};
              label_issues :=
                issue_count
                  <$> filter (λ i, cuid (labels st) ∈ Issue.labels i)
                        (all_issues st) |}.
    cbn [label_id label_row].
    split; [reflexivity|]. split; [apply cuid_fresh|reflexivity].
Qed.

Example createProjectLabels_short_title :
  createProjectLabels (mkCtx "u1") short_title sample_store
  = (inl (ZodError [ {| path := "title"; code := too_small |} ]), sample_store).
Proof. reflexivity. Qed.

Example createProjectLabels_long_color :
  createProjectLabels (mkCtx "u1") long_color sample_store
  = (inl (ZodError [ {| path := "color"; code := too_big |} ]), sample_store).
Proof. reflexivity. Qed.

Example createProjectLabels_good :
  ∃ created,
    createProjectLabels (mkCtx "u1") good_label sample_store
    = (inr created,
       set_labels (insert (label_id created) (label_row created)) sample_store)
    ∧ Label.title (label_row created) = "defect"
    ∧ label_issues created = [].
Proof.
  eexists (mkLabelWithIssues _ _ _). split; [reflexivity|].
  split; vm_compute; reflexivity.
Qed.

(** ** updateProject *)

(** C9: [updateProject] keeps every project stored under its id; on the
    targeted project it leaves the type, the workspace, the members and the
    workflows as they were, so that only [name], [defaultAssigneeId] and
    [projectLeadId] can differ; every other project, and every other table,
    is unchanged. *)
Theorem updateProject_frame ctx input st :
  ∃ r st',
    updateProject ctx input st = (r, st')
    ∧ (∀ id row, projects st !! id = Some row →
         ∃ row',
           projects st' !! id = Some row'
           ∧ Project.projectType row' = Project.projectType row
           ∧ Project.workspaceId row' = Project.workspaceId row
           ∧ Project.members row' = Project.members row
           ∧ Project.workflows row' = Project.workflows row
           ∧ (id ≠ UpdateProjectInput.id input → row' = row))
    ∧ (∀ id, projects st !! id = None → projects st' !! id = None)
    ∧ users st' = users st
    ∧ workspaces st' = workspaces st
    ∧ labels st' = labels st.
Proof.
  unfold updateProject, project_update.
  destruct (projects st !! UpdateProjectInput.id input) as [target|] eqn:Htarget.
  - eexists _, _. split; [reflexivity|].
    unfold set_projects; cbn [projects users workspaces labels].
    split; [|split; [|done]].
    + intros id row Hrow.
      destruct (decide (id = UpdateProjectInput.id input)) as [->|Hne].
      * rewrite lookup_insert_eq. rewrite Htarget in Hrow. injection Hrow as <-.
        eexists. split; [reflexivity|]. done.
      * rewrite lookup_insert_ne by done. exists row. done.
    + intros id Hnone. rewrite lookup_insert_ne; [done|]. congruence.
  - exists (inl RecordNotFound), st. split; [reflexivity|].
    split; [|done]. intros id row Hrow. exists row. done.
Qed.

Example updateProject_p1 :
  ∃ row st',
    updateProject (mkCtx "u3") retitle_p1 sample_store = (inr row, st')
    ∧ projects st' !! "p1" = Some row
    ∧ projects st' !! "p2" = Some sample_p2
    ∧ Project.name row = "Roadmap"
    ∧ Project.projectLeadId row = "u2"
    ∧ Project.defaultAssigneeId row = Some "u2"
    ∧ Project.projectType row = KANBAN.
Proof. eexists _, _. split; [reflexivity|]. repeat split; vm_compute; reflexivity. Qed.

(** ** Labels: listing, deleting, updating *)

Lemma labels_of_project_listed st projectId id row :
  label_listed (labels_of_project st projectId) id row
  ↔ labels st !! id = Some row ∧ Label.projectId row = projectId.
Proof.
  unfold label_listed, labels_of_project. split.
  - intros (r & Hr & <- & <-).
    apply list_elem_of_fmap in Hr as ([id row] & -> & Hin).
    apply list_elem_of_filter in Hin as [Hp Hin].
    by apply elem_of_map_to_list in Hin.
  - intros [Hrow Hp]. exists (label_with_issues st (id, row)).
    split; [|done]. apply list_elem_of_fmap. exists (id, row).
    split; [done|]. apply list_elem_of_filter. split; [done|].
    by apply elem_of_map_to_list.
Qed.

(** What a resolved [createProjectLabels] did. *)
Lemma createProjectLabels_resolved ctx input st created st' :
  createProjectLabels ctx input st = (inr created, st') →
  createProjectLabels_issues input = []
  ∧ labels st !! label_id created = None
  ∧ label_row created
    = {| Label.title := CreateLabelInput.title input;
         Label.color := CreateLabelInput.color input;
         Label.projectId := CreateLabelInput.projectId input;
         Label.description := CreateLabelInput.description input |}
  ∧ st' = set_labels (insert (label_id created) (label_row created)) st.
Proof.
  unfold createProjectLabels.
  destruct (createProjectLabels_issues input) as [|issue issues]; [|done].
  unfold label_create. intros [= <- <-]. cbn [label_id label_row].
  split; [done|]. split; [apply cuid_fresh|done].
Qed.

(** A rejected [createProjectLabels] is a refusal of the input parser. *)
Lemma createProjectLabels_rejected ctx input st e st' :
  createProjectLabels ctx input st = (inl e, st') →
  e = ZodError (createProjectLabels_issues input) ∧ st' = st.
Proof.
  unfold createProjectLabels.
  destruct (createProjectLabels_issues input) as [|issue issues].
  - unfold label_create. done.
  - by intros [= <- <-].
Qed.

(** X12: after [createProjectLabels] resolved, [getProjectLabels] lists, for each
    project, the labels it listed before, and the created label for the
    project the input names. *)
Theorem createProjectLabels_then_getProjectLabels ctx input st created st' :
  createProjectLabels ctx input st = (inr created, st') →
  ∀ ctx' project, ∃ rows rows',
    getProjectLabels ctx' project st = (inr rows, st)
    ∧ getProjectLabels ctx' project st' = (inr rows', st')
    ∧ ∀ id row,
        label_listed rows' id row
        ↔ label_listed rows id row
          ∨ (ProjectIdInput.projectId project = CreateLabelInput.projectId input
             ∧ id = label_id created ∧ row = label_row created).
Proof.
  intros (_ & Hfresh & Hrow & ->)%createProjectLabels_resolved ctx' project.
  eexists _, _. split; [reflexivity|]. split; [reflexivity|].
  intros id row. rewrite !labels_of_project_listed.
  unfold set_labels; cbn [labels].
  destruct (decide (id = label_id created)) as [->|Hne].
  - assert (Label.projectId (label_row created)
            = CreateLabelInput.projectId input) as Hpid by by rewrite Hrow.
    rewrite lookup_insert_eq, Hfresh. split.
    + intros [[= <-] Hp]. right. by rewrite <- Hp, Hpid.
    + intros [[? _]|(Hp & _ & ->)]; [done|]. by rewrite Hpid.
  - rewrite lookup_insert_ne by done. split; [by left|].
    intros [?|(_ & ? & _)]; done.
Qed.

(** The label "defect" of [good_label] is listed for [p1] once created. *)
Lemma createProjectLabels_good_listed :
  ∃ created st' rows',
    createProjectLabels (mkCtx "u1") good_label sample_store = (inr created, st')
    ∧ getProjectLabels (mkCtx "u2") (ProjectIdInput.mk "p1") st'
      = (inr rows', st')
    ∧ label_listed rows' (label_id created) (label_row created).
Proof.
  destruct (createProjectLabels (mkCtx "u1") good_label sample_store)
    as [[e|created] st'] eqn:Hrun; [by vm_compute in Hrun|].
  exists created, st'.
  destruct (createProjectLabels_then_getProjectLabels _ _ _ _ _ Hrun
              (mkCtx "u2") (ProjectIdInput.mk "p1"))
    as (rows & rows' & _ & Hrows' & Hlisted).
  exists rows'. split; [done|]. split; [done|].
  apply Hlisted. right. done.
Defined.

(** Taking a label id out of an issue that does not carry it changes
    nothing. *)
Lemma issue_disconnect_label_absent id i :
  id ∉ Issue.labels i → issue_disconnect_label id i = i.
Proof.
  intros Hnot. destruct i as [index ls cs asg linked].
  unfold issue_disconnect_label; cbn in *. f_equal.
  induction ls as [|l ls IH]; [done|].
  rewrite filter_cons. apply not_elem_of_cons in Hnot as [Hne Hnot].
  rewrite decide_True by done. f_equal. by apply IH.
Qed.

Lemma issue_disconnect_label_gone id i :
  id ∉ Issue.labels (issue_disconnect_label id i).
Proof.
  unfold issue_disconnect_label; cbn.
  intros [Hne _]%list_elem_of_filter. done.
Qed.

Lemma projects_disconnect_label_absent id st :
  (∀ i, i ∈ all_issues st → id ∉ Issue.labels i) →
  project_disconnect_label id <$> projects st = projects st.
Proof.
  intros Hnot. apply map_eq. intros pid. rewrite lookup_fmap.
  destruct (projects st !! pid) as [p|] eqn:Hp; [|done]. cbn. f_equal.
  assert (∀ w i, w ∈ Project.workflows p → i ∈ Workflow.issue w →
                 id ∉ Issue.labels i) as Hp_not.
  { intros w i Hw Hi. apply Hnot. unfold all_issues.
    apply list_elem_of_bind. exists (pid, p).
    split; [|by apply elem_of_map_to_list].
    apply list_elem_of_bind. by exists w. }
  destruct p as [name type lead assignee ws members workflows].
  unfold project_disconnect_label; cbn in *. f_equal.
  rewrite <- (list_fmap_id workflows) at 2.
  apply Forall_fmap_ext, Forall_forall. intros w Hw.
  destruct w as [title index issues].
  unfold workflow_disconnect_label; cbn. f_equal.
  rewrite <- (list_fmap_id issues) at 2.
  apply Forall_fmap_ext, Forall_forall. intros i Hi.
  apply issue_disconnect_label_absent. by apply (Hp_not _ _ Hw).
Qed.

Lemma all_issues_disconnect_label id st st' i :
  projects st' = project_disconnect_label id <$> projects st →
  i ∈ all_issues st' → id ∉ Issue.labels i.
Proof.
  intros Hst'. unfold all_issues. rewrite Hst'.
  intros ([pid p'] & Hi & Hp')%list_elem_of_bind.
  apply elem_of_map_to_list, lookup_fmap_Some in Hp' as (p & <- & _).
  apply list_elem_of_bind in Hi as (w' & Hi & Hw'). cbn in Hw'.
  apply list_elem_of_fmap in Hw' as (w & -> & _). cbn in Hi.
  apply list_elem_of_fmap in Hi as (i0 & -> & _).
  apply issue_disconnect_label_gone.
Qed.

(** X13: [deleteProjectLabel] on an id that matches no label is rejected with the
    client's not-found error and changes nothing; on a stored label it
    returns that label, removes it and nothing else from the labels, takes
    its id out of every issue, and leaves users, workspaces, and the leads and
    members of the projects as they were. *)
Theorem deleteProjectLabel_outcome ctx input st :
  (labels st !! IdInput.id input = None →
   deleteProjectLabel ctx input st = (inl RecordNotFound, st))
  ∧ (∀ row, labels st !! IdInput.id input = Some row →
     ∃ deleted st',
       deleteProjectLabel ctx input st = (inr deleted, st')
       ∧ label_id deleted = IdInput.id input
       ∧ label_row deleted = row
       ∧ labels st' = delete (IdInput.id input) (labels st)
       ∧ (∀ i, i ∈ all_issues st' → IdInput.id input ∉ Issue.labels i)
       ∧ users st' = users st
       ∧ workspaces st' = workspaces st
       ∧ ∀ id p, projects st !! id = Some p →
           ∃ p', projects st' !! id = Some p'
                 ∧ Project.projectLeadId p' = Project.projectLeadId p
                 ∧ Project.members p' = Project.members p
                 ∧ Workflow.title <$> Project.workflows p'
                   = Workflow.title <$> Project.workflows p).
Proof.
  unfold deleteProjectLabel, label_delete. split.
  - by intros ->.
  - intros row ->. eexists _, _. split; [reflexivity|].
    cbn [label_id label_row label_with_issues fst snd].
    unfold set_labels, set_projects; cbn [labels projects users workspaces].
    do 3 (split; [done|]).
    split; [intros i; by apply (all_issues_disconnect_label _ st)|].
    do 2 (split; [done|]).
    intros id p Hp. exists (project_disconnect_label (IdInput.id input) p).
    rewrite lookup_fmap, Hp. split; [done|]. do 2 (split; [done|]).
    unfold project_disconnect_label; cbn [Project.workflows].
    rewrite <- list_fmap_compose. done.
Qed.

(** X14: deleting the label that [createProjectLabels] just created gives back the
    store [createProjectLabels] started from, provided the labels that issues
    carry are stored labels. *)
Theorem createProjectLabels_then_deleteProjectLabel ctx input st created st1 :
  issue_labels_stored st →
  createProjectLabels ctx input st = (inr created, st1) →
  ∀ ctx', ∃ deleted,
    deleteProjectLabel ctx' (IdInput.mk (label_id created)) st1
    = (inr deleted, st)
    ∧ label_row deleted = label_row created.
Proof.
  intros Hstored (_ & Hfresh & _ & ->)%createProjectLabels_resolved ctx'.
  unfold deleteProjectLabel, label_delete, set_labels at 1; cbn [labels IdInput.id].
  rewrite lookup_insert_eq.
  exists (label_with_issues
            (set_labels (insert (label_id created) (label_row created)) st)
            (label_id created, label_row created)).
  split; [|done]. f_equal.
  unfold set_labels, set_projects; cbn [labels projects users workspaces].
  rewrite delete_insert_id by done.
  rewrite projects_disconnect_label_absent; [by destruct st|].
  intros i Hi Hl. destruct (Hstored _ _ Hi Hl) as [row Hrow]. congruence.
Qed.

Lemma sample_store_issue_labels_stored : issue_labels_stored sample_store.
Proof.
  intros i l Hi Hl.
  assert (l = "l1") as ->; [|by eexists].
  vm_compute in Hi.
  repeat (apply elem_of_cons in Hi as [->|Hi];
          [by apply list_elem_of_singleton in Hl|]).
  by apply elem_of_nil in Hi.
Qed.

(** Creating "defect" in the sample store and deleting it again. *)
Lemma createProjectLabels_good_then_delete :
  ∃ created st1 deleted,
    createProjectLabels (mkCtx "u1") good_label sample_store = (inr created, st1)
    ∧ deleteProjectLabel (mkCtx "u2") (IdInput.mk (label_id created)) st1
      = (inr deleted, sample_store)
    ∧ label_row deleted = label_row created.
Proof.
  destruct (createProjectLabels (mkCtx "u1") good_label sample_store)
    as [[e|created] st1] eqn:Hrun; [by vm_compute in Hrun|].
  exists created, st1.
  destruct (createProjectLabels_then_deleteProjectLabel _ _ _ _ _
              sample_store_issue_labels_stored Hrun (mkCtx "u2"))
    as (deleted & Hdelete & Hrow).
  by exists deleted.
Defined.

Lemma updateProjectLabel_issues_nil input :
  updateProjectLabel_issues input = []
  ↔ String.length (UpdateLabelInput.color input) = 7.
Proof.
  unfold updateProjectLabel_issues.
  destruct (Nat.ltb_spec (String.length (UpdateLabelInput.color input)) 7);
    destruct (Nat.ltb_spec 7 (String.length (UpdateLabelInput.color input)));
    simpl; split; try done; lia.
Qed.

Lemma updateProjectLabel_cases ctx input st :
  updateProjectLabel ctx input st =
  match updateProjectLabel_issues input with
  | [] =>
      match labels st !! UpdateLabelInput.id input with
      | None => (inl RecordNotFound, st)
      | Some row =>
          (inr (label_with_issues st
                  (UpdateLabelInput.id input, updated_label input row)),
           set_labels (insert (UpdateLabelInput.id input)
                         (updated_label input row)) st)
      end
  | issues => (inl (ZodError issues), st)
  end.
Proof.
  unfold updateProjectLabel, label_update.
  destruct (updateProjectLabel_issues input); [|done].
  by destruct (labels st !! UpdateLabelInput.id input).
Qed.

(** X15: [updateProjectLabel] refuses a color that does not have exactly 7
    characters before it reads the store.  With such a color, an id that
    matches no label is rejected with the client's not-found error; a stored
    label gets the title and color of the input and keeps its project; its
    description is kept when the input has none, cleared when the input has
    [null], and replaced otherwise. *)
Theorem updateProjectLabel_outcome ctx input :
  (String.length (UpdateLabelInput.color input) ≠ 7 →
   ∃ issues,
     issues ≠ []
     ∧ ∀ st, updateProjectLabel ctx input st = (inl (ZodError issues), st))
  ∧ (String.length (UpdateLabelInput.color input) = 7 →
     ∀ st,
       (labels st !! UpdateLabelInput.id input = None →
        updateProjectLabel ctx input st = (inl RecordNotFound, st))
       ∧ (∀ row, labels st !! UpdateLabelInput.id input = Some row →
          ∃ updated,
            updateProjectLabel ctx input st
            = (inr updated,
               set_labels (insert (UpdateLabelInput.id input)
                             (label_row updated)) st)
            ∧ label_id updated = UpdateLabelInput.id input
            ∧ Label.title (label_row updated) = UpdateLabelInput.title input
            ∧ Label.color (label_row updated) = UpdateLabelInput.color input
            ∧ Label.projectId (label_row updated) = Label.projectId row
            ∧ Label.description (label_row updated)
              = match UpdateLabelInput.description input with
                | Undefined => Label.description row
                | Null => None
                | Value s => Some s
                end)).
Proof.
  split.
  - intros Hbad. exists (updateProjectLabel_issues input).
    assert (updateProjectLabel_issues input ≠ []) as Hne.
    { by intros Hnil%updateProjectLabel_issues_nil. }
    split; [done|]. intros st. rewrite updateProjectLabel_cases.
    by destruct (updateProjectLabel_issues input).
  - intros Hok%updateProjectLabel_issues_nil st.
    rewrite updateProjectLabel_cases, Hok. split.
    + by intros ->.
    + intros row ->. eexists (mkLabelWithIssues _ _ _).
      split; [reflexivity|]. done.
Qed.

(** X16: [updateProjectLabel] puts no lower bound on the title: a title of fewer
    than 4 characters, which [createProjectLabels] refuses, is stored by an
    update of a stored label, and the store then holds a label whose title is
    shorter than 4. *)
Theorem updateProjectLabel_short_title ctx id title color description st row :
  String.length title < 4 →
  String.length color = 7 →
  labels st !! id = Some row →
  (∃ issues,
     createProjectLabels ctx
       {| CreateLabelInput.projectId := Label.projectId row;
          CreateLabelInput.title := title;
          CreateLabelInput.color := color;
          CreateLabelInput.description := None |} st
     = (inl (ZodError issues), st))
  ∧ ∃ updated st' row',
      updateProjectLabel ctx
        {| UpdateLabelInput.id := id; UpdateLabelInput.title := title;
           UpdateLabelInput.description := description;
           UpdateLabelInput.color := color |} st
      = (inr updated, st')
      ∧ labels st' !! id = Some row'
      ∧ Label.title row' = title
      ∧ ¬ titles_valid st'.
Proof.
  intros Hshort Hcolor Hrow. split.
  - unfold createProjectLabels.
    destruct (createProjectLabels_issues _) as [|issue issues] eqn:Hissues.
    + apply createProjectLabels_issues_nil in Hissues. cbn in Hissues.
      destruct Hissues. by left.
    + by eexists.
  - rewrite updateProjectLabel_cases.
    replace (updateProjectLabel_issues _) with (@nil ZodIssue)
      by (symmetry; by apply updateProjectLabel_issues_nil).
    cbn [UpdateLabelInput.id]. rewrite Hrow.
    eexists _, _, _. split; [reflexivity|].
    unfold set_labels; cbn [labels]. rewrite lookup_insert_eq.
    split; [reflexivity|]. split; [done|].
    intros Hvalid. specialize (Hvalid id _ (lookup_insert_eq _ _ _)).
    cbn in Hvalid. lia.
Qed.

(** The label [l1] of the sample store is renamed "p0". *)
Lemma updateProjectLabel_rename_l1 :
  (∃ issues,
     createProjectLabels (mkCtx "u1")
       {| CreateLabelInput.projectId := "p1"; CreateLabelInput.title := "p0";
          CreateLabelInput.color := "#0000ff";
          CreateLabelInput.description := None |} sample_store
     = (inl (ZodError issues), sample_store))
  ∧ ∃ updated st' row',
      updateProjectLabel (mkCtx "u1") rename_l1 sample_store = (inr updated, st')
      ∧ labels st' !! "l1" = Some row'
      ∧ Label.title row' = "p0"
      ∧ ¬ titles_valid st'.
Proof.
  apply (updateProjectLabel_short_title (mkCtx "u1") "l1" "p0" "#0000ff"
           Undefined sample_store
           {| Label.title := "urgent"; Label.color := "#ff0000";
              Label.projectId := "p1"; Label.description := None |}).
  - vm_compute. lia.
  - reflexivity.
  - reflexivity.
Defined.

(** X17: the three procedures that write labels keep every stored color at 7
    characters, whatever their input and whether they resolve or not. *)
Theorem label_colors_invariant ctx st :
  colors_valid st →
  (∀ input, colors_valid (createProjectLabels ctx input st).2)
  ∧ (∀ input, colors_valid (updateProjectLabel ctx input st).2)
  ∧ (∀ input, colors_valid (deleteProjectLabel ctx input st).2).
Proof.
  intros Hvalid. split; [|split]; intros input.
  - destruct (createProjectLabels ctx input st) as [[e|created] st'] eqn:Hrun.
    + by apply createProjectLabels_rejected in Hrun as [_ ->].
    + apply createProjectLabels_resolved in Hrun as (Hok & _ & Hrow & ->).
      apply createProjectLabels_issues_nil in Hok.
      intros id row. unfold set_labels; cbn [snd labels].
      destruct (decide (id = label_id created)) as [->|Hne].
      * rewrite lookup_insert_eq. intros [= <-]. rewrite Hrow. cbn. lia.
      * rewrite lookup_insert_ne by done. apply Hvalid.
  - rewrite updateProjectLabel_cases.
    destruct (updateProjectLabel_issues input) as [|issue issues] eqn:Hissues;
      [|done].
    apply updateProjectLabel_issues_nil in Hissues.
    destruct (labels st !! UpdateLabelInput.id input) as [row|]; [|done].
    intros id row'. unfold set_labels; cbn [snd labels].
    destruct (decide (id = UpdateLabelInput.id input)) as [->|Hne].
    + rewrite lookup_insert_eq. by intros [= <-].
    + rewrite lookup_insert_ne by done. apply Hvalid.
  - unfold deleteProjectLabel, label_delete.
    destruct (labels st !! IdInput.id input) as [row|]; [|done].
    intros id row'. unfold set_labels; cbn [snd labels projects set_projects].
    intros [_ Hrow']%lookup_delete_Some. by apply (Hvalid id).
Qed.

Lemma sample_store_colors_valid : colors_valid sample_store.
Proof.
  intros id row. unfold sample_store; cbn [labels].
  by intros [_ <-]%lookup_singleton_Some.
Qed.

(** The colors of the sample store stay valid. *)
Lemma label_colors_invariant_sample :
  (∀ input, colors_valid (createProjectLabels (mkCtx "u1") input sample_store).2)
  ∧ (∀ input, colors_valid (updateProjectLabel (mkCtx "u1") input sample_store).2)
  ∧ (∀ input, colors_valid (deleteProjectLabel (mkCtx "u1") input sample_store).2).
Proof.
  exact (label_colors_invariant (mkCtx "u1") sample_store
           sample_store_colors_valid).
Defined.

(** X18: [createProjectLabels] and [deleteProjectLabel] keep every stored title at
    4 characters or more. *)
Theorem label_titles_invariant ctx st :
  titles_valid st →
  (∀ input, titles_valid (createProjectLabels ctx input st).2)
  ∧ (∀ input, titles_valid (deleteProjectLabel ctx input st).2).
Proof.
  intros Hvalid. split; intros input.
  - destruct (createProjectLabels ctx input st) as [[e|created] st'] eqn:Hrun.
    + by apply createProjectLabels_rejected in Hrun as [_ ->].
    + apply createProjectLabels_resolved in Hrun as (Hok & _ & Hrow & ->).
      apply createProjectLabels_issues_nil in Hok.
      intros id row. unfold set_labels; cbn [snd labels].
      destruct (decide (id = label_id created)) as [->|Hne].
      * rewrite lookup_insert_eq. intros [= <-]. rewrite Hrow. cbn. lia.
      * rewrite lookup_insert_ne by done. apply Hvalid.
  - unfold deleteProjectLabel, label_delete.
    destruct (labels st !! IdInput.id input) as [row|]; [|done].
    intros id row'. unfold set_labels; cbn [snd labels projects set_projects].
    intros [_ Hrow']%lookup_delete_Some. by apply (Hvalid id).
Qed.

Lemma sample_store_titles_valid : titles_valid sample_store.
Proof.
  intros id row. unfold sample_store; cbn [labels].
  intros [_ <-]%lookup_singleton_Some. cbn. lia.
Qed.

(** The titles of the sample store stay valid. *)
Lemma label_titles_invariant_sample :
  (∀ input, titles_valid (createProjectLabels (mkCtx "u1") input sample_store).2)
  ∧ (∀ input, titles_valid (deleteProjectLabel (mkCtx "u1") input sample_store).2).
Proof.
  exact (label_titles_invariant (mkCtx "u1") sample_store
           sample_store_titles_valid).
Defined.

(** ** Projects: reading *)

(** The rows of [getUserProjects], by project id. *)
Lemma getUserProjects_listed ctx st :
  ∃ rows,
    getUserProjects ctx st = (inr rows, st)
    ∧ ∀ id,
        project_listed rows id
        ↔ ∃ row, projects st !! id = Some row
                 ∧ (session_user_id ctx ∈ Project.members row
                    ∨ Project.projectLeadId row = session_user_id ctx).
Proof.
  unfold getUserProjects, project_findMany_of_user, project_listed.
  eexists. split; [reflexivity|]. intros id. split.
  - intros (r & Hr & <-).
    apply list_elem_of_fmap in Hr as ([id row] & -> & Hin).
    apply list_elem_of_filter in Hin as [Hp Hin].
    apply elem_of_map_to_list in Hin. by exists row.
  - intros (row & Hrow & Hp).
    exists {| row_id := id; row_project := row;
              row_projectLead :=
                (λ u, (User.name u, User.image u))
                  <$> users st !! Project.projectLeadId row |}.
    split; [|done].
    apply list_elem_of_fmap. exists (id, row). split; [reflexivity|].
    apply list_elem_of_filter. split; [exact Hp|].
    by apply elem_of_map_to_list.
Qed.

(** X1: [getAllProjects] resolves with every stored project, each once and with
    the name of its lead, for any caller; every project [getUserProjects]
    returns to a caller is among them. *)
Theorem getAllProjects_exactly ctx st :
  ∃ rows,
    getAllProjects ctx st = (inr rows, st)
    ∧ NoDup (all_id <$> rows)
    ∧ (∀ id row,
         (∃ r, r ∈ rows ∧ all_id r = id ∧ all_project r = row)
         ↔ projects st !! id = Some row)
    ∧ (∀ r, r ∈ rows →
         all_projectLead r
         = User.name <$> users st !! Project.projectLeadId (all_project r))
    ∧ ∀ ctx' rows' r',
        getUserProjects ctx' st = (inr rows', st) → r' ∈ rows' →
        ∃ r, r ∈ rows ∧ all_id r = row_id r' ∧ all_project r = row_project r'.
Proof.
  unfold getAllProjects. eexists. split; [reflexivity|].
  assert (∀ id row,
            (∃ r, r ∈ (λ row : string * Project.t,
                         {| all_id := row.1; all_project := row.2;
                            all_projectLead :=
                              User.name
                                <$> users st !! Project.projectLeadId row.2 |})
                        <$> map_to_list (projects st)
                  ∧ all_id r = id ∧ all_project r = row)
            ↔ projects st !! id = Some row) as Hall.
  { intros id row. split.
    - intros (r & Hr & <- & <-).
      apply list_elem_of_fmap in Hr as ([id row] & -> & Hin).
      by apply elem_of_map_to_list in Hin.
    - intros Hrow. eexists (mkProjectWithLeadName id row _). split; [|done].
      apply list_elem_of_fmap. exists (id, row). split; [reflexivity|].
      by apply elem_of_map_to_list. }
  split; [|split; [exact Hall|split]].
  - rewrite <- list_fmap_compose. apply (NoDup_fst_map_to_list (projects st)).
  - intros r Hr. by apply list_elem_of_fmap in Hr as ([id row] & -> & _).
  - intros ctx' rows' r' [= <-] Hr'. apply Hall.
    apply list_elem_of_fmap in Hr' as ([id row] & -> & Hin).
    apply list_elem_of_filter in Hin as [_ Hin].
    by apply elem_of_map_to_list in Hin.
Qed.

Example getAllProjects_sample :
  ∃ rows,
    getAllProjects (mkCtx "u2") sample_store = (inr rows, sample_store)
    ∧ (λ r, (all_id r, all_projectLead r)) <$> rows
      = [("p1", Some "Asha"); ("p2", Some "Chen")].
Proof. eexists. split; [reflexivity|]. vm_compute. reflexivity. Qed.

(** The users a set of member ids names. *)
Lemma members_listed st (members : gset string) :
  NoDup (omap (λ id, pair id <$> users st !! id) (elements members)).*1
  ∧ ∀ id u,
      (id, u) ∈ omap (λ id, pair id <$> users st !! id) (elements members)
      ↔ id ∈ members ∧ users st !! id = Some u.
Proof.
  split.
  - apply (sublist_NoDup _ (elements members)); [apply NoDup_elements|].
    induction (elements members) as [|id ids IH]; [done|].
    cbn. destruct (users st !! id); cbn; by constructor.
  - intros id u. rewrite list_elem_of_omap. split.
    + intros (id' & Hin%elem_of_elements & Hu).
      destruct (users st !! id') as [u'|] eqn:Hu'; [|done].
      cbn in Hu. by injection Hu as <- <-.
    + intros [Hin Hu]. exists id. split; [by apply elem_of_elements|].
      by rewrite Hu.
Qed.

(** X2: [getProjectById] never rejects and never writes: for an id that matches
    no project it resolves with [null]; for a stored project it resolves with
    that project, its members that are stored users, its lead, its default
    assignee when it has one, and exactly the labels whose project it is. *)
Theorem getProjectById_outcome ctx input st :
  (projects st !! IdInput.id input = None →
   getProjectById ctx input st = (inr None, st))
  ∧ (∀ row, projects st !! IdInput.id input = Some row →
     ∃ full,
       getProjectById ctx input st = (inr (Some full), st)
       ∧ full_project full = row
       ∧ (∀ id u, (id, u) ∈ full_members full
                  ↔ id ∈ Project.members row ∧ users st !! id = Some u)
       ∧ full_projectLead full = users st !! Project.projectLeadId row
       ∧ (Project.defaultAssigneeId row = None →
          full_defaultAssignee full = None)
       ∧ (∀ id, Project.defaultAssigneeId row = Some id →
                full_defaultAssignee full = users st !! id)
       ∧ ∀ id label,
           label_listed (full_labels full) id label
           ↔ labels st !! id = Some label
             ∧ Label.projectId label = IdInput.id input).
Proof.
  unfold getProjectById. split.
  - by intros ->.
  - intros row ->. eexists (mkProjectWithRelations _ _ _ _ _).
    split; [reflexivity|]. cbn. split; [done|].
    split; [apply members_listed|]. split; [done|].
    split; [by intros ->|]. split; [by intros id ->|].
    intros id label. apply labels_of_project_listed.
Qed.

Example getProjectById_sample :
  (getProjectById (mkCtx "u3") (IdInput.mk "p9") sample_store).1 = inr None
  ∧ ∃ full,
      getProjectById (mkCtx "u3") (IdInput.mk "p1") sample_store
      = (inr (Some full), sample_store)
      ∧ full_members full = [("u2", sample_user "Bo")]
      ∧ full_projectLead full = Some (sample_user "Asha")
      ∧ full_defaultAssignee full = None
      ∧ (λ l, (label_id l, label_issues l)) <$> full_labels full
        = [("l1", [mkIssueCount 0 1 1 0; mkIssueCount 0 1 1 0;
                   mkIssueCount 0 1 1 0])].
Proof.
  split; [reflexivity|]. eexists (mkProjectWithRelations _ _ _ _ _).
  split; [reflexivity|]. repeat split; vm_compute; reflexivity.
Qed.

(** X3: [getProjectMembers] never rejects and never writes: it resolves with
    [null] for an id that matches no project, and for a stored project with
    its members that are stored users, each once. *)
Theorem getProjectMembers_outcome ctx input st :
  (projects st !! ProjectIdInput.projectId input = None →
   getProjectMembers ctx input st = (inr None, st))
  ∧ (∀ row, projects st !! ProjectIdInput.projectId input = Some row →
     ∃ members,
       getProjectMembers ctx input st = (inr (Some members), st)
       ∧ NoDup members.*1
       ∧ ∀ id u, (id, u) ∈ members
                 ↔ id ∈ Project.members row ∧ users st !! id = Some u).
Proof.
  unfold getProjectMembers. split.
  - by intros ->.
  - intros row ->. eexists. split; [reflexivity|]. apply members_listed.
Qed.

(** ** Projects: creating, updating, deleting, in sequence *)

(** X4: [createProject] is rejected exactly when the caller is not a stored
    user, with the client's not-found error and no write; when it resolves,
    the only change to the store is the new project under an id that was
    free. *)
Theorem createProject_outcome ctx input st :
  (users st !! session_user_id ctx = None →
   createProject ctx input st = (inl RecordNotFound, st))
  ∧ (∀ e st', createProject ctx input st = (inl e, st') →
       users st !! session_user_id ctx = None ∧ e = RecordNotFound ∧ st' = st)
  ∧ (∀ id row st', createProject ctx input st = (inr (id, row), st') →
       is_Some (users st !! session_user_id ctx)
       ∧ projects st !! id = None
       ∧ projects st' = <[id:=row]> (projects st)
       ∧ users st' = users st
       ∧ workspaces st' = workspaces st
       ∧ labels st' = labels st).
Proof.
  assert (users st !! session_user_id ctx = None →
          createProject ctx input st = (inl RecordNotFound, st)) as Hnone.
  { intros Hu. unfold createProject, await, workspace_findFirst, project_create.
    cbn [create_members_connect]. by rewrite Hu. }
  split; [exact Hnone|].
  destruct (users st !! session_user_id ctx) as [u|] eqn:Hu.
  - destruct (createProject_resolves ctx input st) as (ws & rows & _ & _ & Hrun);
      [by rewrite Hu|].
    cbn zeta in Hrun. rewrite Hrun. split; [done|].
    intros id row st' [= <- <- <-]. split; [by eexists|].
    split; [apply cuid_fresh|done].
  - rewrite Hnone by done. split; [|done]. by intros e st' [= <- <-].
Qed.

(** X5: the creator of a project can delete it at once, and the store is then
    what it was before the project was created. *)
Theorem createProject_then_deleteProject ctx input st :
  is_Some (users st !! session_user_id ctx) →
  ∃ id row st1,
    createProject ctx input st = (inr (id, row), st1)
    ∧ deleteProject ctx (IdInput.mk id) st1 = (inr row, st).
Proof.
  intros Huser.
  destruct (createProject_resolves ctx input st Huser)
    as (ws & rows & _ & _ & Hrun). cbn zeta in Hrun.
  eexists _, _, _. split; [exact Hrun|].
  rewrite deleteProject_cases. unfold set_projects; cbn [projects IdInput.id].
  rewrite lookup_insert_eq. cbn [Project.projectLeadId].
  rewrite bool_decide_eq_true_2 by done. f_equal.
  cbn [users workspaces labels]. rewrite delete_insert_id by apply cuid_fresh.
  by destruct st.
Qed.

(** [u1] creates the sprint board and deletes it. *)
Lemma createProject_sprint_board_then_delete :
  ∃ id row st1,
    createProject (mkCtx "u1") sprint_board sample_store = (inr (id, row), st1)
    ∧ deleteProject (mkCtx "u1") (IdInput.mk id) st1 = (inr row, sample_store).
Proof.
  apply (createProject_then_deleteProject (mkCtx "u1") sprint_board sample_store).
  exists (sample_user "Asha"). reflexivity.
Defined.

(** X6: [getProjectWorkflows] on a project that was just created resolves with
    the template of its type in the order of the template, the workflow at
    position [i] with index [i], and no issue anywhere. *)
Theorem createProject_then_getProjectWorkflows ctx input st :
  is_Some (users st !! session_user_id ctx) →
  ∃ id row st1 rows,
    createProject ctx input st = (inr (id, row), st1)
    ∧ (∀ ctx',
         getProjectWorkflows ctx' (ProjectIdInput.mk id) st1 = (inr rows, st1))
    ∧ workflow_title <$> rows
      = defaultWorkflows (projectTypesList (CreateProjectInput.projectType input))
    ∧ workflow_index <$> rows = Z.of_nat <$> seq 0 (length rows)
    ∧ Forall (λ r, workflow_issue r = []) rows.
Proof.
  intros Huser.
  destruct (createProject_resolves ctx input st Huser)
    as (ws & rows & _ & Hrows & Hrun). cbn zeta in Hrun.
  rewrite createMany_defaultWorkflows in Hrows. injection Hrows as <-.
  eexists _, _, _, _. split; [exact Hrun|]. split.
  - intros ctx'.
    unfold getProjectWorkflows, project_findUniqueOrThrow_workflows.
    unfold set_projects at 1; cbn [projects ProjectIdInput.projectId].
    rewrite lookup_insert_eq. cbn [Project.workflows]. reflexivity.
  - destruct (CreateProjectInput.projectType input);
      repeat split; vm_compute; repeat constructor.
Qed.

(** The workflows of the sprint board, read back. *)
Lemma createProject_sprint_board_workflows_read :
  ∃ id row st1 rows,
    createProject (mkCtx "u1") sprint_board sample_store = (inr (id, row), st1)
    ∧ (∀ ctx',
         getProjectWorkflows ctx' (ProjectIdInput.mk id) st1 = (inr rows, st1))
    ∧ workflow_title <$> rows
      = ["Backlog"; "To Do"; "In Progress"; "Review"; "Done"]
    ∧ workflow_index <$> rows = Z.of_nat <$> seq 0 (length rows)
    ∧ Forall (λ r, workflow_issue r = []) rows.
Proof.
  apply (createProject_then_getProjectWorkflows (mkCtx "u1") sprint_board
           sample_store).
  exists (sample_user "Asha"). reflexivity.
Defined.

(** X7: a project that was just created is listed by [getUserProjects] for its
    creator, and [getProjectMembers] resolves with the creator alone. *)
Theorem createProject_then_listed ctx input st u :
  users st !! session_user_id ctx = Some u →
  ∃ id row st1 rows,
    createProject ctx input st = (inr (id, row), st1)
    ∧ getUserProjects ctx st1 = (inr rows, st1)
    ∧ project_listed rows id
    ∧ ∀ ctx',
        getProjectMembers ctx' (ProjectIdInput.mk id) st1
        = (inr (Some [(session_user_id ctx, u)]), st1).
Proof.
  intros Hu.
  destruct (createProject_resolves ctx input st) as (ws & wfs & _ & _ & Hrun);
    [by eexists|]. cbn zeta in Hrun.
  match type of Hrun with _ = (_, ?s) => set (st1 := s) in * end.
  destruct (getUserProjects_listed ctx st1) as (rows & Hrows & Hlisted).
  eexists _, _, st1, rows. split; [exact Hrun|]. split; [exact Hrows|].
  split.
  - apply Hlisted. eexists. split; [apply lookup_insert_eq|].
    right. reflexivity.
  - intros ctx'. unfold getProjectMembers, st1, set_projects.
    cbn [projects users ProjectIdInput.projectId].
    rewrite lookup_insert_eq. cbn [fmap option_fmap option_map Project.members].
    rewrite elements_singleton. cbn. by rewrite Hu.
Qed.

(** [u1] sees the sprint board and is its only member. *)
Lemma createProject_sprint_board_listed :
  ∃ id row st1 rows,
    createProject (mkCtx "u1") sprint_board sample_store = (inr (id, row), st1)
    ∧ getUserProjects (mkCtx "u1") st1 = (inr rows, st1)
    ∧ project_listed rows id
    ∧ ∀ ctx',
        getProjectMembers ctx' (ProjectIdInput.mk id) st1
        = (inr (Some [("u1", sample_user "Asha")]), st1).
Proof.
  apply (createProject_then_listed (mkCtx "u1") sprint_board sample_store
           (sample_user "Asha")).
  reflexivity.
Defined.

(** X8: [updateProject] checks nothing about the caller: whoever calls it on a
    stored project with their own id as [projectLeadId] becomes the lead, and
    their [deleteProject] then resolves and removes the project. *)
Theorem updateProject_then_deleteProject ctx input st row :
  projects st !! UpdateProjectInput.id input = Some row →
  UpdateProjectInput.projectLeadId input = session_user_id ctx →
  ∃ row' st1,
    updateProject ctx input st = (inr row', st1)
    ∧ deleteProject ctx (IdInput.mk (UpdateProjectInput.id input)) st1
      = (inr row', set_projects (delete (UpdateProjectInput.id input)) st).
Proof.
  intros Hrow Hlead. unfold updateProject, project_update. rewrite Hrow.
  eexists _, _. split; [reflexivity|].
  rewrite deleteProject_cases. unfold set_projects; cbn [projects IdInput.id].
  rewrite lookup_insert_eq. cbn [Project.projectLeadId].
  rewrite bool_decide_eq_true_2 by done.
  cbn [users workspaces labels]. by rewrite delete_insert_eq.
Qed.

(** [u3], who neither leads [p1] nor is a member of it, deletes it. *)
Lemma updateProject_then_deleteProject_u3 :
  ("u3" ∉ Project.members sample_p1)
  ∧ (Project.projectLeadId sample_p1 ≠ "u3")
  ∧ ∃ row' st1,
      updateProject (mkCtx "u3") takeover_p1 sample_store = (inr row', st1)
      ∧ deleteProject (mkCtx "u3") (IdInput.mk "p1") st1
        = (inr row', set_projects (delete "p1") sample_store).
Proof.
  split; [by vm_compute|]. split; [discriminate|].
  apply (updateProject_then_deleteProject (mkCtx "u3") takeover_p1 sample_store
           sample_p1); reflexivity.
Defined.


(** X10: once [deleteProject] has resolved, the project is gone for every
    procedure: a second [deleteProject] is rejected with [BAD_REQUEST],
    [getProjectById] and [getProjectMembers] resolve with [null],
    [getProjectWorkflows] is rejected with the not-found error; every other
    project is stored as before. *)
Theorem deleteProject_then ctx input st row st' :
  deleteProject ctx input st = (inr row, st') →
  (∀ ctx', deleteProject ctx' input st' = (inl unexpected_error, st'))
  ∧ (∀ ctx', getProjectById ctx' input st' = (inr None, st'))
  ∧ (∀ ctx', getProjectMembers ctx' (ProjectIdInput.mk (IdInput.id input)) st'
             = (inr None, st'))
  ∧ (∀ ctx', getProjectWorkflows ctx' (ProjectIdInput.mk (IdInput.id input)) st'
             = (inl RecordNotFound, st'))
  ∧ (∀ id, id ≠ IdInput.id input → projects st' !! id = projects st !! id)
  ∧ users st' = users st
  ∧ workspaces st' = workspaces st
  ∧ labels st' = labels st.
Proof.
  intros (_ & _ & ->)%deleteProject_resolves_iff.
  assert (projects (set_projects (delete (IdInput.id input)) st)
            !! IdInput.id input = None) as Hgone by apply lookup_delete_eq.
  split; [intros ctx'; by rewrite deleteProject_cases, Hgone|].
  split; [intros ctx'; unfold getProjectById; by rewrite Hgone|].
  split; [intros ctx'; unfold getProjectMembers;
          cbn [ProjectIdInput.projectId]; by rewrite Hgone|].
  split; [intros ctx'; unfold getProjectWorkflows,
            project_findUniqueOrThrow_workflows;
          cbn [ProjectIdInput.projectId]; by rewrite Hgone|].
  split; [|done]. intros id Hne. unfold set_projects; cbn [projects].
  by rewrite lookup_delete_ne.
Qed.

(** [u1] deletes [p1]; [p2] stays. *)
Lemma deleteProject_then_p1 :
  deleteProject (mkCtx "u1") (IdInput.mk "p1")
    (set_projects (delete "p1") sample_store)
  = (inl unexpected_error, set_projects (delete "p1") sample_store)
  ∧ projects (set_projects (delete "p1") sample_store) !! "p2" = Some sample_p2.
Proof.
  destruct (deleteProject_then (mkCtx "u1") (IdInput.mk "p1") sample_store
              sample_p1 (set_projects (delete "p1") sample_store))
    as (Hagain & _ & _ & _ & Hother & _); [reflexivity|].
  split; [apply Hagain|]. by rewrite Hother.
Defined.

(** X11: [assignUserToProject] is rejected, with the client's not-found error and
    no write, unless the workspace of the input has a user whose id is the
    input's [projectId] and a project is stored under the input's [userId];
    then it resolves with that user, who joins the members of that project.
    No member is ever removed, and nothing else changes. *)
Theorem assignUserToProject_outcome ctx input st :
  (∀ e st', assignUserToProject ctx input st = (inl e, st') →
            e = RecordNotFound ∧ st' = st)
  ∧ (∀ u st', assignUserToProject ctx input st = (inr u, st') →
       users st !! AssignUserInput.projectId input = Some u
       ∧ User.workspaceId u = Some (AssignUserInput.workspaceId input)
       ∧ is_Some (projects st !! AssignUserInput.userId input)
       ∧ users st' = users st
       ∧ workspaces st' = workspaces st
       ∧ labels st' = labels st
       ∧ (∀ id, projects st' !! id = None ↔ projects st !! id = None)
       ∧ ∀ id row, projects st !! id = Some row →
           ∃ row', projects st' !! id = Some row'
                   ∧ Project.members row'
                     = (if decide (id = AssignUserInput.userId input)
                        then {[ AssignUserInput.projectId input ]} else ∅)
                       ∪ Project.members row
                   ∧ Project.name row' = Project.name row
                   ∧ Project.projectType row' = Project.projectType row
                   ∧ Project.projectLeadId row' = Project.projectLeadId row
                   ∧ Project.defaultAssigneeId row' = Project.defaultAssigneeId row
                   ∧ Project.workspaceId row' = Project.workspaceId row
                   ∧ Project.workflows row' = Project.workflows row)
  ∧ ((∃ u, users st !! AssignUserInput.projectId input = Some u
           ∧ User.workspaceId u = Some (AssignUserInput.workspaceId input))
     → is_Some (projects st !! AssignUserInput.userId input)
     → ∃ u st', assignUserToProject ctx input st = (inr u, st')).
Proof.
  unfold assignUserToProject, user_update_connect_project.
  destruct (users st !! AssignUserInput.projectId input) as [u|] eqn:Hu.
  2: { split; [by intros e st' [= <- <-]|]. split; [done|].
       by intros (u & ? & _). }
  case_bool_decide as Hws.
  2: { split; [by intros e st' [= <- <-]|]. split; [done|].
       by intros (u' & [= <-] & ?). }
  destruct (projects st !! AssignUserInput.userId input) as [target|] eqn:Htarget.
  2: { split; [by intros e st' [= <- <-]|]. split; [done|].
       by intros _ [? ?]. }
  split; [done|]. split; [|by eexists _, _].
  intros u' st' [= <- <-]. unfold set_projects; cbn [projects users workspaces labels].
  do 2 (split; [done|]). split; [by eexists|]. do 3 (split; [done|]).
  split.
  - intros id. destruct (decide (id = AssignUserInput.userId input)) as [->|Hne].
    + rewrite lookup_insert_eq, Htarget. done.
    + by rewrite lookup_insert_ne.
  - intros id row Hrow. case_decide as Hid.
    + subst id. rewrite lookup_insert_eq. rewrite Htarget in Hrow.
      injection Hrow as <-. eexists. split; [reflexivity|]. done.
    + rewrite lookup_insert_ne by done. exists row. split; [done|].
      split; [by rewrite (left_id_L ∅ (∪))|done].
Qed.

(** ** The members page *)

(** X21: the avatar of a row shows the image of the member exactly when the member
    has one that is not the empty string, and then it is that image, with the
    id of the member as alternative text: the path that stands after [||] in
    the source is never what is shown.  Otherwise the avatar shows the name.
    The name stands beside the avatar in both cases. *)
Theorem render_user_avatar record :
  match (render_user record).1 with
  | AvatarImage src alt =>
      Member.image record = Some src ∧ src ≠ "" ∧ alt = Member.id record
  | AvatarName name =>
      name = Member.name record
      ∧ (Member.image record = None ∨ Member.image record = Some "")
  end
  ∧ (render_user record).2 = Member.name record.
Proof.
  unfold render_user, or_else, truthy. split; [|done].
  destruct (Member.image record) as [s|]; cbn; [|by split; [|left]].
  destruct (String.eqb_spec s "") as [->|Hne]; cbn; [by split; [|right]|done].
Qed.

Example render_user_sample :
  (fst ∘ render_user) <$> WorkspaceState.members sample_workspace
  = [AvatarImage "/avatars/asha.png" "u1"; AvatarName "Bo"; AvatarName "Chen"].
Proof. reflexivity. Qed.

Lemma render_action_Leave w record :
  render_action (Some w) record = "Leave"
  ↔ Member.id record = WorkspaceState.createdById w.
Proof.
  unfold render_action. cbn. case_bool_decide as Heq.
  - split; [|done]. by intros _; injection Heq.
  - split; [done|]. intros Hid. destruct Heq. by rewrite Hid.
Qed.

Lemma Members_table_leave_count w members :
  NoDup (Member.id <$> members) →
  length (filter (λ r, action_cell r = "Leave")
            ((λ record,
                {| rowKey := Member.id record;
                   user_cell := render_user record;
                   action_cell := render_action (Some w) record |})
               <$> members))
  = if bool_decide (WorkspaceState.createdById w ∈ Member.id <$> members)
    then 1 else 0.
Proof.
  induction members as [|m members IH]; [done|].
  rewrite !fmap_cons. intros [Hnotin Hnodup]%NoDup_cons.
  rewrite filter_cons. cbn [action_cell].
  specialize (IH Hnodup).
  destruct (decide (Member.id m = WorkspaceState.createdById w)) as [Hm|Hm].
  - rewrite decide_True by by apply render_action_Leave.
    cbn [length]. rewrite IH.
    rewrite bool_decide_eq_false_2 by by rewrite <- Hm.
    rewrite bool_decide_eq_true_2; [done|]. rewrite Hm. apply list_elem_of_here.
  - rewrite decide_False by by rewrite render_action_Leave.
    rewrite IH. case_bool_decide as Hin; case_bool_decide as Hin'; try done.
    + destruct Hin'. by apply elem_of_cons; right.
    + apply elem_of_cons in Hin' as [Heq|Hin']; [by destruct Hm|by destruct Hin].
Qed.

(** X22: the table has one row per member, keyed by the member's id, and the
    number in the title is the number of rows.  A row has the button "Leave"
    when its member created the workspace and "Remove" otherwise; when no two
    members share an id, "Leave" stands in one row if the creator is a member
    and in none if not. *)
Theorem Members_table_actions w :
  NoDup (Member.id <$> WorkspaceState.members w) →
  rowKey <$> Members_table (Some w) = Member.id <$> WorkspaceState.members w
  ∧ Members_count (Some w) = Some (length (Members_table (Some w)))
  ∧ (∀ r, r ∈ Members_table (Some w) →
       (action_cell r = "Leave" ∧ rowKey r = WorkspaceState.createdById w)
       ∨ (action_cell r = "Remove" ∧ rowKey r ≠ WorkspaceState.createdById w))
  ∧ length (filter (λ r, action_cell r = "Leave") (Members_table (Some w)))
    = if bool_decide (WorkspaceState.createdById w
                      ∈ Member.id <$> WorkspaceState.members w)
      then 1 else 0.
Proof.
  intros Hnodup. unfold Members_table, Members_count. cbn.
  split; [by rewrite <- list_fmap_compose|].
  split; [by rewrite length_fmap|].
  split; [|by apply Members_table_leave_count].
  intros r (m & -> & _)%list_elem_of_fmap. cbn.
  destruct (decide (Member.id m = WorkspaceState.createdById w)) as [Hm|Hm].
  - left. split; [by apply render_action_Leave|done].
  - right. split; [|done]. unfold render_action. cbn.
    rewrite bool_decide_eq_false_2; [done|]. intros [= Heq]. by destruct Hm.
Qed.

(** In the sample workspace only the row of [u1] has "Leave". *)
Lemma Members_table_sample :
  rowKey <$> Members_table (Some sample_workspace) = ["u1"; "u2"; "u3"]
  ∧ Members_count (Some sample_workspace)
    = Some (length (Members_table (Some sample_workspace)))
  ∧ (∀ r, r ∈ Members_table (Some sample_workspace) →
       (action_cell r = "Leave" ∧ rowKey r = "u1")
       ∨ (action_cell r = "Remove" ∧ rowKey r ≠ "u1"))
  ∧ length (filter (λ r, action_cell r = "Leave")
              (Members_table (Some sample_workspace)))
    = 1.
Proof.
  apply (Members_table_actions sample_workspace).
  apply (bool_decide_unpack _). by vm_compute.
Defined.

(** While the workspace is not loaded the table has no row and the title no
    number. *)
Example Members_table_not_loaded :
  Members_table None = [] ∧ Members_count None = None.
Proof. done. Qed.

(** ** Referential integrity of the labels of issues *)

Lemma all_issues_elem st i :
  i ∈ all_issues st
  ↔ ∃ id p w, projects st !! id = Some p
              ∧ w ∈ Project.workflows p ∧ i ∈ Workflow.issue w.
Proof.
  unfold all_issues. rewrite list_elem_of_bind. split.
  - intros ([id p] & Hi & Hp%elem_of_map_to_list).
    apply list_elem_of_bind in Hi as (w & Hi & Hw). by exists id, p, w.
  - intros (id & p & w & Hp & Hw & Hi). exists (id, p).
    split; [|by apply elem_of_map_to_list].
    apply list_elem_of_bind. by exists w.
Qed.

(** The issues of a store whose projects are some of the projects of another,
    with the same workflows, are issues of the other. *)
Lemma all_issues_within st st' :
  (∀ id p', projects st' !! id = Some p' →
     Project.workflows p' = []
     ∨ ∃ p, projects st !! id = Some p
            ∧ Project.workflows p' = Project.workflows p) →
  ∀ i, i ∈ all_issues st' → i ∈ all_issues st.
Proof.
  intros Hwithin i (id & p' & w & Hp' & Hw & Hi)%all_issues_elem.
  destruct (Hwithin _ _ Hp') as [Hnil|(p & Hp & Hsame)].
  - rewrite Hnil in Hw. by apply elem_of_nil in Hw.
  - apply all_issues_elem. exists id, p, w. by rewrite <- Hsame.
Qed.

Lemma all_issues_disconnected id st st' i :
  projects st' = project_disconnect_label id <$> projects st →
  i ∈ all_issues st' →
  ∃ i0, i0 ∈ all_issues st ∧ i = issue_disconnect_label id i0.
Proof.
  intros Hst' (pid & p' & w' & Hp' & Hw' & Hi)%all_issues_elem.
  rewrite Hst' in Hp'. apply lookup_fmap_Some in Hp' as (p & <- & Hp).
  cbn in Hw'. apply list_elem_of_fmap in Hw' as (w & -> & Hw).
  cbn in Hi. apply list_elem_of_fmap in Hi as (i0 & -> & Hi0).
  exists i0. split; [|done]. apply all_issues_elem. by exists pid, p, w.
Qed.

Lemma createProject_cases ctx input st :
  createProject ctx input st = (inl RecordNotFound, st)
  ∨ ∃ id row,
      createProject ctx input st
      = (inr (id, row), set_projects (insert id row) st)
      ∧ projects st !! id = None
      ∧ Forall (λ w, Workflow.issue w = []) (Project.workflows row).
Proof.
  destruct (users st !! session_user_id ctx) as [u|] eqn:Hu.
  - right.
    destruct (createProject_resolves ctx input st) as (ws & rows & _ & Hrows & Hrun);
      [by rewrite Hu|]. cbn zeta in Hrun.
    eexists _, _. split; [exact Hrun|]. split; [apply cuid_fresh|].
    cbn [Project.workflows].
    rewrite createMany_defaultWorkflows in Hrows. injection Hrows as <-.
    destruct (CreateProjectInput.projectType input); repeat constructor.
  - left. unfold createProject, await, workspace_findFirst, project_create.
    cbn [create_members_connect]. by rewrite Hu.
Qed.

(** X19: if every label id that an issue carries is the id of a stored label,
    this is still so after any of the seven procedures that write, whatever
    the input and whether the call resolves or not. *)
Theorem issue_labels_stored_invariant ctx st :
  issue_labels_stored st →
  (∀ input, issue_labels_stored (createProject ctx input st).2)
  ∧ (∀ input, issue_labels_stored (updateProject ctx input st).2)
  ∧ (∀ input, issue_labels_stored (deleteProject ctx input st).2)
  ∧ (∀ input, issue_labels_stored (assignUserToProject ctx input st).2)
  ∧ (∀ input, issue_labels_stored (createProjectLabels ctx input st).2)
  ∧ (∀ input, issue_labels_stored (updateProjectLabel ctx input st).2)
  ∧ (∀ input, issue_labels_stored (deleteProjectLabel ctx input st).2).
Proof.
  intros Hstored.
  assert (∀ st', labels st' = labels st →
            (∀ id p', projects st' !! id = Some p' →
               Project.workflows p' = []
               ∨ ∃ p, projects st !! id = Some p
                      ∧ Project.workflows p' = Project.workflows p) →
            issue_labels_stored st') as Hsame.
  { intros st' Hlabels Hwithin i l Hi Hl. rewrite Hlabels.
    apply (Hstored i); [|done]. by apply (all_issues_within st st'). }
  repeat split; intros input.
  - destruct (createProject_cases ctx input st)
      as [->|(id & row & -> & Hfresh & Hempty)]; [done|].
    intros i l (id' & p & w & Hp & Hw & Hi)%all_issues_elem Hl.
    unfold set_projects in *; cbn [snd projects labels] in *.
    destruct (decide (id' = id)) as [->|Hne].
    + rewrite lookup_insert_eq in Hp. injection Hp as <-.
      rewrite Forall_forall in Hempty. rewrite (Hempty w Hw) in Hi.
      by apply elem_of_nil in Hi.
    + rewrite lookup_insert_ne in Hp by done.
      apply (Hstored i); [|done]. apply all_issues_elem. by exists id', p, w.
  - unfold updateProject, project_update.
    destruct (projects st !! UpdateProjectInput.id input) as [row|] eqn:Hrow;
      [|done].
    apply Hsame; [done|]. intros id p'. unfold set_projects; cbn [snd projects].
    destruct (decide (id = UpdateProjectInput.id input)) as [->|Hne].
    + rewrite lookup_insert_eq. intros [= <-]. right. by exists row.
    + rewrite lookup_insert_ne by done. intros Hp. right. by exists p'.
  - rewrite deleteProject_cases.
    destruct (projects st !! IdInput.id input) as [row|]; [|done].
    case_bool_decide; [|done].
    apply Hsame; [done|]. intros id p'. unfold set_projects; cbn [snd projects].
    intros [_ Hp]%lookup_delete_Some. right. by exists p'.
  - unfold assignUserToProject, user_update_connect_project.
    destruct (users st !! AssignUserInput.projectId input) as [u|]; [|done].
    case_bool_decide; [|done].
    destruct (projects st !! AssignUserInput.userId input) as [row|] eqn:Hrow;
      [|done].
    apply Hsame; [done|]. intros id p'. unfold set_projects; cbn [snd projects].
    destruct (decide (id = AssignUserInput.userId input)) as [->|Hne].
    + rewrite lookup_insert_eq. intros [= <-]. right. by exists row.
    + rewrite lookup_insert_ne by done. intros Hp. right. by exists p'.
  - destruct (createProjectLabels ctx input st) as [[e|created] st'] eqn:Hrun.
    + by apply createProjectLabels_rejected in Hrun as [_ ->].
    + apply createProjectLabels_resolved in Hrun as (_ & _ & _ & ->).
      intros i l Hi Hl. unfold set_labels; cbn [snd labels].
      apply lookup_insert_is_Some'. right. by apply (Hstored i).
  - rewrite updateProjectLabel_cases.
    destruct (updateProjectLabel_issues input); [|done].
    destruct (labels st !! UpdateLabelInput.id input); [|done].
    intros i l Hi Hl. unfold set_labels; cbn [snd labels].
    apply lookup_insert_is_Some'. right. by apply (Hstored i).
  - unfold deleteProjectLabel, label_delete.
    destruct (labels st !! IdInput.id input) as [row|]; [|done].
    intros i l Hi Hl. cbn [snd] in *.
    apply (all_issues_disconnected (IdInput.id input) st) in Hi
      as (i0 & Hi0 & ->); [|done].
    cbn in Hl. apply list_elem_of_filter in Hl as [Hne Hl].
    unfold set_labels, set_projects; cbn [labels].
    rewrite lookup_delete_ne by done. by apply (Hstored i0).
Qed.

(** The sample store keeps its integrity. *)
Lemma issue_labels_stored_sample :
  (∀ input, issue_labels_stored (createProject (mkCtx "u1") input sample_store).2)
  ∧ (∀ input, issue_labels_stored (updateProject (mkCtx "u1") input sample_store).2)
  ∧ (∀ input, issue_labels_stored (deleteProject (mkCtx "u1") input sample_store).2)
  ∧ (∀ input,
       issue_labels_stored (assignUserToProject (mkCtx "u1") input sample_store).2)
  ∧ (∀ input,
       issue_labels_stored (createProjectLabels (mkCtx "u1") input sample_store).2)
  ∧ (∀ input,
       issue_labels_stored (updateProjectLabel (mkCtx "u1") input sample_store).2)
  ∧ (∀ input,
       issue_labels_stored (deleteProjectLabel (mkCtx "u1") input sample_store).2).
Proof.
  exact (issue_labels_stored_invariant (mkCtx "u1") sample_store
           sample_store_issue_labels_stored).
Defined.

Lemma filter_none {A} (P : A → Prop) `{!∀ x, Decision (P x)} (l : list A) :
  (∀ x, x ∈ l → ¬ P x) → filter P l = [].
Proof.
  induction l as [|x l IH]; [done|]. intros Hnone.
  rewrite filter_cons, decide_False by (apply Hnone; left).
  apply IH. intros y Hy. apply Hnone. by right.
Qed.

(** X20: in a store with that integrity, the label [createProjectLabels] returns
    has no issue. *)
Theorem createProjectLabels_no_issue ctx input st created st' :
  issue_labels_stored st →
  createProjectLabels ctx input st = (inr created, st') →
  label_issues created = [].
Proof.
  intros Hstored. unfold createProjectLabels.
  destruct (createProjectLabels_issues input); [|done].
  unfold label_create. intros [= <- _]. cbn [label_issues].
  rewrite filter_none; [done|]. intros i Hi Hl.
  destruct (Hstored _ _ Hi Hl) as [row Hrow].
  by rewrite cuid_fresh in Hrow.
Qed.

(** The label "defect" has no issue when it is created. *)
Lemma createProjectLabels_good_no_issue :
  ∃ created st',
    createProjectLabels (mkCtx "u1") good_label sample_store = (inr created, st')
    ∧ label_issues created = [].
Proof.
  destruct (createProjectLabels (mkCtx "u1") good_label sample_store)
    as [[e|created] st'] eqn:Hrun; [by vm_compute in Hrun|].
  exists created, st'. split; [done|].
  exact (createProjectLabels_no_issue _ _ _ _ _
           sample_store_issue_labels_stored Hrun).
Defined.
